(** * find_oldest_sstable.py: the oldest [Data.db] under /mnt/cassandra

    A shallow embedding of [find_oldest_sstable_globally] and the properties
    of its traversal, reduction and error handling.

    The script talks to the file system through five library calls
    ([os.path.isdir], [os.listdir], [os.walk], [os.path.getmtime],
    [os.path.join]) and to the operator through [print].  The file system is
    modelled as a tree of entries, every library call logs an event, and the
    script is a computation in a log-and-exception monad, so that a run is
    described by the ordered list of calls it made and lines it printed.
    What the interpreter and the machine decide (how a time is rendered and
    for which times, how deep [os.walk] can go) is a parameter, the host. *)

From Stdlib Require Import String Ascii List ZArith Bool Lia Sorted DecimalString.
Import ListNotations.
Open Scope string_scope.
Open Scope Z_scope.
Open Scope list_scope.

(** ** Exceptions *)

(** The three classes the script's handlers tell apart.  [OtherError] stands
    for every other subclass of [Exception] (NotADirectoryError, a plain
    OSError, ...). *)
Inductive exn_class : Type :=
| FileNotFoundError
| PermissionError
| OtherError.

(** An exception: its class and [str(e)], which the handlers print. *)
Record exn : Type := Exn { class : exn_class; text : string }.

Definition is_FileNotFoundError (e : exn) : bool :=
  match class e with FileNotFoundError => true | _ => false end.

Definition is_PermissionError (e : exn) : bool :=
  match class e with PermissionError => true | _ => false end.

(** ** Times and the host *)

(** Modification times are finite floats that the script only compares; they
    are represented by integers in the same order. *)
Abbreviation mtime_t := Z.

(** What the script's behaviour depends on besides the tree.
    - [strftime t] is [datetime.fromtimestamp(t).strftime('%Y-%m-%d
      %H:%M:%S')]: the text, which depends on the time zone, or the
      exception raised for a time outside the range of [datetime].
    - [walk_limit]: how many levels below its top [os.walk] can descend
      before a directory with sub-directories makes it raise
      [RecursionError].  Up to CPython 3.11 [os.walk] is a recursive
      generator and the bound is what the recursion limit leaves; from 3.12
      it is a loop and there is no bound ([None]).
    - [recursion_text]: the text of that [RecursionError]. *)
Record host : Type := Host {
  strftime : mtime_t -> exn + string;
  walk_limit : option nat;
  recursion_text : string
}.

(** [RecursionError] is a subclass of [Exception] that neither handler
    names. *)
Definition recursion_error (h : host) : exn := Exn OtherError (recursion_text h).

(** ** The file system *)

#[local] Unset Elimination Schemes.

(** What a path names.
    - [File st]: anything [os.path.isdir] and [scandir]'s [is_dir()] report
      as not a directory (a regular file, a link to one, a dangling link, a
      name removed after it was listed, a path that names nothing); [st] is
      what [os.path.getmtime] does on it.
    - [Dir lnk deny entries]: a directory, reached through a symbolic link
      when [lnk] is set; listing it raises [e] when [deny = Some e] and
      otherwise returns [entries], in the order the system lists them. *)
Inductive node : Type :=
| File (st : exn + mtime_t)
| Dir (lnk : bool) (deny : option exn) (entries : list (string * node)).

#[local] Set Elimination Schemes.

Abbreviation entry := (string * node)%type.

Definition is_dir (n : node) : bool :=
  match n with Dir _ _ _ => true | File _ => false end.

Definition is_link (n : node) : bool :=
  match n with Dir lnk _ _ => lnk | File _ => false end.

(** Induction over a tree together with all the entries of its directories. *)
Fixpoint node_rect' (P : node -> Type) (Q : list entry -> Type)
    (HF : forall st, P (File st))
    (HD : forall lnk deny es, Q es -> P (Dir lnk deny es))
    (HN : Q [])
    (HC : forall name c es, P c -> Q es -> Q ((name, c) :: es))
    (n : node) {struct n} : P n :=
  match n with
  | File st => HF st
  | Dir lnk deny es =>
      HD lnk deny es
        ((fix entries_rect (l : list entry) : Q l :=
            match l with
            | [] => HN
            | (name, c) :: l' =>
                HC name c l' (node_rect' P Q HF HD HN HC c) (entries_rect l')
            end) es)
  end.

(** ** Events and the monad of the script *)

(** One event per library call the script makes, with the call's outcome,
    and one per [print].  [Walk top] is the call [os.walk(top)];
    [WalkRaised top e] is the exception [e] raised by that generator when
    the loop asks it for its next item. *)
Inductive event : Type :=
| Isdir (path : string) (answer : bool)
| Listdir (path : string) (failure : option exn)
| Walk (path : string)
| WalkRaised (path : string) (e : exn)
| Getmtime (path : string) (outcome : exn + mtime_t)
| Print (line : string).

(** A computation: the events so far and either a raised exception or a
    value. *)
Definition M (A : Type) : Type := (list event * (exn + A))%type.

Definition ret {A} (a : A) : M A := ([], inr a).

Definition raise {A} (e : exn) : M A := ([], inl e).

Definition bind {A B} (m : M A) (k : A -> M B) : M B :=
  match m with
  | (tr, inl e) => (tr, inl e)
  | (tr, inr a) => let (tr', r) := k a in (tr ++ tr', r)
  end.

Declare Scope scan_scope.
Delimit Scope scan_scope with scan.
Notation "x <- m ;; k" := (bind m (fun x => k))
  (at level 100, m at next level, right associativity) : scan_scope.
Notation "m ;;; k" := (bind m (fun _ => k))
  (at level 100, right associativity) : scan_scope.
Open Scope scan_scope.

(** [try: m  except <handles>: h] *)
Definition try_except {A} (m : M A) (handles : exn -> bool) (h : exn -> M A) : M A :=
  match m with
  | (tr, inl e) =>
      if handles e then let (tr', r) := h e in (tr ++ tr', r) else (tr, inl e)
  | (tr, inr a) => (tr, inr a)
  end.

(** [for x in xs: s = body(s, x)], left when the body raises. *)
Fixpoint for_each {A S} (xs : list A) (body : S -> A -> M S) (s : S) : M S :=
  match xs with
  | [] => ret s
  | x :: xs' => s' <- body s x ;; for_each xs' body s'
  end.

Definition print (line : string) : M unit := ([Print line], inr tt).

(** The lines printed in a list of events, and by a computation. *)
Definition printed (tr : list event) : list string :=
  flat_map (fun ev => match ev with Print s => [s] | _ => [] end) tr.

Definition stdout {A} (m : M A) : list string := printed (fst m).

(** ** The library calls *)

Definition starts_with_sep (s : string) : bool :=
  match s with
  | String c _ => Ascii.eqb c "/"
  | EmptyString => false
  end.

Fixpoint ends_with_sep (s : string) : bool :=
  match s with
  | EmptyString => false
  | String c EmptyString => Ascii.eqb c "/"
  | String _ r => ends_with_sep r
  end.

(** [os.path.join(a, b)] (posixpath). *)
Definition os_path_join (a b : string) : string :=
  if starts_with_sep b then b
  else if (a =? "")%string || ends_with_sep a then (a ++ b)%string
  else (a ++ "/" ++ b)%string.

(** [os.path.basename(p)]: what follows the last separator. *)
Fixpoint basename_from (acc p : string) : string :=
  match p with
  | EmptyString => acc
  | String c r =>
      if Ascii.eqb c "/" then basename_from "" r
      else basename_from (acc ++ String c "")%string r
  end.

Definition os_path_basename (p : string) : string := basename_from "" p.

(** [os.path.isdir(path)] follows links and never raises. *)
Definition os_path_isdir (path : string) (n : node) : M bool :=
  ([Isdir path (is_dir n)], inr (is_dir n)).

Definition not_a_directory (path : string) : exn :=
  Exn OtherError ("[Errno 20] Not a directory: '" ++ path ++ "'")%string.

(** [os.listdir(path)]: the entries, or the exception of the listing. *)
Definition os_listdir (path : string) (n : node) : M (list entry) :=
  match n with
  | Dir _ None es => ([Listdir path None], inr es)
  | Dir _ (Some e) _ => ([Listdir path (Some e)], inl e)
  | File _ => ([Listdir path (Some (not_a_directory path))],
               inl (not_a_directory path))
  end.

(** [os.path.getmtime(path)] on a non-directory entry. *)
Definition os_path_getmtime (path : string) (st : exn + mtime_t) : M mtime_t :=
  ([Getmtime path st], st).

(** The [(root, dirs, files)] triples of [os.walk]; a file comes with what
    reading its modification time will do. *)
Definition walk_item : Type :=
  (string * list string * list (string * (exn + mtime_t)))%type.

Definition dirnames (es : list entry) : list string :=
  map fst (filter (fun e => is_dir (snd e)) es).

Definition nondirs (es : list entry) : list (string * (exn + mtime_t)) :=
  flat_map (fun e => match snd e with
                     | File st => [(fst e, st)]
                     | Dir _ _ _ => []
                     end) es.

(** What the generator [os.walk(top)] does when it is run to its end: the
    items it yields, in order, and the exception it then raises, if any. *)
Definition walked : Type := (list walk_item * option exn)%type.

(** One part of a walk followed by another; nothing follows an exception. *)
Definition then_walk (a b : walked) : walked :=
  match snd a with
  | Some _ => a
  | None => (fst a ++ fst b, snd b)
  end.

(** What is left of the bound one directory further down, if anything. *)
Definition lower (limit : option nat) : option (option nat) :=
  match limit with
  | None => Some None
  | Some O => None
  | Some (S k) => Some (Some k)
  end.

(** The loop [for dirname in dirs] of [os.walk], run to its end: [sub e] is
    what it does for the directory entry [e]. *)
Definition sub_walks (sub : entry -> walked) (es : list entry) : walked :=
  fold_right
    (fun e rest => if is_dir (snd e) then then_walk (sub e) rest else rest)
    ([], None) es.

(** [os.walk(top)] as the script calls it: top-down, [onerror=None], so a
    directory that cannot be listed yields nothing and raises nothing, and
    [followlinks=False], so a sub-directory that is a symbolic link is
    named in [dirs] and not entered.  The recursive [os.walk] joins [top]
    with each name of [dirs], tests the result for a link and then runs the
    generator of the sub-directory one frame further down; [stop] is raised
    at the first name of [dirs], link or not, of a directory as deep as the
    bound [limit] allows. *)
Fixpoint walk (stop : exn) (limit : option nat) (top : string) (n : node)
    {struct n} : walked :=
  match n with
  | File _ => ([], None)
  | Dir _ (Some _) _ => ([], None)
  | Dir _ None es =>
      then_walk ([(top, dirnames es, nondirs es)], None)
        (sub_walks
           (fun e =>
              match lower limit with
              | None => ([], Some stop)
              | Some limit' =>
                  if is_link (snd e) then ([], None)
                  else walk stop limit' (os_path_join top (fst e)) (snd e)
              end)
           es)
  end.

Definition os_walk (h : host) (top : string) (n : node) : M walked :=
  ([Walk top], inr (walk (recursion_error h) (walk_limit h) top n)).

(** The end of the loop over a generator that has yielded all its items:
    the exception it raises, if any, leaves the loop. *)
Definition exhaust {A} (top : string) (ending : option exn) (a : A) : M A :=
  match ending with
  | Some e => ([WalkRaised top e], inl e)
  | None => ret a
  end.

(** [name in files], giving the entry found. *)
Fixpoint lookup {A} (name : string) (l : list (string * A)) : option A :=
  match l with
  | [] => None
  | (k, v) :: l' => if (k =? name)%string then Some v else lookup name l'
  end.

Definition mem (name : string) (l : list string) : bool :=
  existsb (fun k => (k =? name)%string) l.

Arguments mem : simpl never.
Arguments os_path_join : simpl never.

(** ** The script *)

Definition base_cassandra_path : string := "/mnt/cassandra".

Definition system_keyspaces : list string :=
  ["system"; "system_schema"; "system_auth";
   "system_distributed"; "system_traces"; "system_views"].

(** [oldest_file_time]: a modification time or [float('inf')]. *)
Inductive time_or_inf : Type :=
| Fin (t : mtime_t)
| Inf.

(** [mtime < oldest_file_time] *)
Definition older (mtime : mtime_t) (oldest : time_or_inf) : bool :=
  match oldest with
  | Fin t => mtime <? t
  | Inf => true
  end.

(** The two variables of the reduction: [oldest_file_path] ([None] or a
    string) and [oldest_file_time]. *)
Record state : Type := State {
  oldest_file_path : option string;
  oldest_file_time : time_or_inf
}.

Definition initial : state := State None Inf.

(** Lines 48-62: the body of the loop over [os.walk(table_path)]. *)
Definition visit (s : state) (item : walk_item) : M state :=
  let '(root, _, files) := item in
  match lookup "Data.db" files with
  | Some st =>
      let full_path := os_path_join root "Data.db" in
      try_except
        (mtime <- os_path_getmtime full_path st ;;
         if older mtime (oldest_file_time s)
         then ret (State (Some full_path) (Fin mtime))
         else ret s)
        is_FileNotFoundError
        (fun _ => ret s)
  | None => ret s
  end.

(** Lines 41-62: the body of the loop over the entries of a keyspace. *)
Definition table_loop (h : host) (keyspace_path : string) (s : state) (e : entry)
    : M state :=
  let '(table_dir, n) := e in
  let table_path := os_path_join keyspace_path table_dir in
  d <- os_path_isdir table_path n ;;
  if negb d then ret s
  else
    generator <- os_walk h table_path n ;;
    s' <- for_each (fst generator) visit s ;;
    exhaust table_path (snd generator) s'.

(** Lines 33-62: the body of the loop over the entries of the base
    directory. *)
Definition keyspace_loop (h : host) (s : state) (e : entry) : M state :=
  let '(keyspace, n) := e in
  let keyspace_path := os_path_join base_cassandra_path keyspace in
  d <- os_path_isdir keyspace_path n ;;
  if negb d || mem keyspace system_keyspaces then ret s
  else
    tables <- os_listdir keyspace_path n ;;
    for_each tables (table_loop h keyspace_path) s.

(** Lines 24-62: the body of the outer [try]. *)
Definition scan (h : host) (base : node) : M state :=
  keyspaces <- os_listdir base_cassandra_path base ;;
  for_each keyspaces (keyspace_loop h) initial.

(** [if oldest_file_path:] *)
Definition truthy (p : option string) : bool :=
  match p with
  | Some s => negb (s =? "")%string
  | None => false
  end.

(** [{oldest_file_path}] in a formatted string. *)
Definition format_path (p : option string) : string :=
  match p with
  | Some s => s
  | None => "None"
  end.

Definition newline : string := String (ascii_of_nat 10) EmptyString.

Definition report_missing : list string :=
  [("Error: Cassandra data directory not found at '" ++ base_cassandra_path ++ "'")%string;
   "Please ensure you are running this script on the correct server."].

Definition report_scanning : string :=
  ("Scanning for the oldest Data.db file under: " ++ base_cassandra_path ++ newline)%string.

Definition report_permission (e : exn) : list string :=
  ["Permission denied: Could not scan directory. Please run with appropriate permissions.";
   ("Details: " ++ text e)%string].

Definition report_unexpected (e : exn) : list string :=
  [("An unexpected error occurred: " ++ text e)%string].

Definition report_found (path readable_time : string) : list string :=
  ["--- Oldest SSTable Found Across All Keyspaces ---";
   ("Path: " ++ path)%string;
   ("Modification Time: " ++ readable_time)%string].

Definition report_none : list string :=
  [("No 'Data.db' files were found under '" ++ base_cassandra_path
      ++ "' (excluding system keyspaces).")%string].

Fixpoint print_all (lines : list string) : M unit :=
  match lines with
  | [] => ret tt
  | l :: ls => print l ;;; print_all ls
  end.

(** Lines 64-70: the two handlers of the outer [try]; each prints and
    returns from the function. *)
Definition handlers (e : exn) : M (option state) :=
  (if is_PermissionError e then print_all (report_permission e)
   else print_all (report_unexpected e)) ;;;
  ret None.

(** Every class of [exn_class] is a subclass of [Exception]. *)
Definition is_Exception (e : exn) : bool := true.

(** What [datetime.fromtimestamp] raises on [float('inf')]. *)
Definition overflow : exn :=
  Exn OtherError "cannot convert float infinity to integer".

(** Line 75, which is outside the [try]: an exception of the rendering
    leaves the function. *)
Definition readable (h : host) (t : time_or_inf) : M string :=
  match t with
  | Fin z =>
      match strftime h z with
      | inr text => ret text
      | inl e => raise e
      end
  | Inf => raise overflow
  end.

(** Lines 72-80. *)
Definition present (h : host) (s : state) : M unit :=
  if truthy (oldest_file_path s) then
    readable_time <- readable h (oldest_file_time s) ;;
    print_all (report_found (format_path (oldest_file_path s)) readable_time)
  else print_all report_none.

(** The whole function, on what [/mnt/cassandra] names.  An exception in
    the result is one that leaves the function. *)
Definition find_oldest_sstable_globally (h : host) (base : node) : M unit :=
  d <- os_path_isdir base_cassandra_path base ;;
  if negb d then print_all report_missing
  else
    print report_scanning ;;;
    outcome <- try_except (s <- scan h base ;; ret (Some s)) is_Exception handlers ;;
    match outcome with
    | Some s => present h s
    | None => ret tt
    end.

(** * Notions used in the statements *)

(** ** Candidates and the running minimum *)

(** The candidates a run observed: the files whose modification time was
    read, in the order of the reads. *)
Definition candidates (tr : list event) : list (string * mtime_t) :=
  flat_map (fun ev => match ev with
                      | Getmtime p (inr t) => [(p, t)]
                      | _ => []
                      end) tr.

(** Lines 56-59 on one candidate. *)
Definition step (s : state) (c : string * mtime_t) : state :=
  if older (snd c) (oldest_file_time s)
  then State (Some (fst c)) (Fin (snd c))
  else s.

(** [(p, t)] is the first of the candidates with the least time. *)
Definition first_least (p : string) (t : mtime_t) (cs : list (string * mtime_t)) : Prop :=
  exists before after,
    cs = before ++ (p, t) :: after
    /\ (forall c, In c before -> t < snd c)
    /\ (forall c, In c after -> t <= snd c).

Definition reducing (m : state -> M state) : Prop :=
  forall s tr s', m s = (tr, inr s') -> s' = fold_left step (candidates tr) s.

(** The loop of lines 47-62 over the generator of one table directory. *)
Definition walk_loop (h : host) (table_path : string) (n : node) (s : state)
    : M state :=
  s' <- for_each (fst (walk (recursion_error h) (walk_limit h) table_path n)) visit s ;;
  exhaust table_path (snd (walk (recursion_error h) (walk_limit h) table_path n)) s'.

(** ** Events of a scan *)

(** The events the [try] block can log: no line is printed, and a
    modification time is only read at a path built as
    [os.path.join(root, 'Data.db')]. *)
Definition scan_event (ev : event) : Prop :=
  match ev with
  | Print _ => False
  | Getmtime p _ => exists root, p = os_path_join root "Data.db"
  | _ => True
  end.

(** The exception an event leaves unhandled inside the [try] block: a
    failed listing, a failed read of a modification time that is not a
    [FileNotFoundError], or the exception of an [os.walk] generator. *)
Definition fatal (ev : event) : option exn :=
  match ev with
  | Listdir _ (Some e) => Some e
  | Getmtime _ (inl e) => if is_FileNotFoundError e then None else Some e
  | WalkRaised _ e => Some e
  | _ => None
  end.

(** ** Target files and readable trees *)

Definition entries_of (n : node) : list entry :=
  match n with Dir _ _ es => es | File _ => [] end.

(** [below top n p t]: in the directory [n], whose path is [top], a file
    named [Data.db] with modification time [t] lies at path [p], at any
    depth. *)
Inductive below : string -> node -> string -> mtime_t -> Prop :=
| below_here top lnk deny es t :
    In ("Data.db", File (inr t)) es ->
    below top (Dir lnk deny es) (os_path_join top "Data.db") t
| below_deeper top lnk deny es name c p t :
    In (name, c) es ->
    below (os_path_join top name) c p t ->
    below top (Dir lnk deny es) p t.

(** A target file of the tree at [/mnt/cassandra]: a [Data.db] in the
    subtree of a table directory of a keyspace that is not excluded. *)
Definition target (base : node) (p : string) (t : mtime_t) : Prop :=
  exists keyspace ks table_dir tb,
    In (keyspace, ks) (entries_of base)
    /\ mem keyspace system_keyspaces = false
    /\ In (table_dir, tb) (entries_of ks)
    /\ below (os_path_join (os_path_join base_cassandra_path keyspace) table_dir)
             tb p t.

Definition is_none {A} (o : option A) : bool :=
  match o with None => true | Some _ => false end.

Fixpoint unique (names : list string) : bool :=
  match names with
  | [] => true
  | x :: rest => negb (mem x rest) && unique rest
  end.

(** Reading the modification time succeeds, or (when [vanish] is set) fails
    because the file has gone. *)
Definition stat_ok (vanish : bool) (st : exn + mtime_t) : bool :=
  match st with
  | inr _ => true
  | inl e => vanish && is_FileNotFoundError e
  end.

(** An entry inside a table directory of a readable tree, in a directory
    from which [os.walk] can still descend as [limit] says: the names of a
    directory are distinct, directories are real ones, can be listed and
    are within the bound, and files can be read up to [stat_ok]. *)
Fixpoint plain (vanish : bool) (limit : option nat) (n : node) : bool :=
  match n with
  | File st => stat_ok vanish st
  | Dir lnk deny es =>
      negb lnk && is_none deny && unique (map fst es)
      && match lower limit with
         | None => false
         | Some limit' => forallb (fun e => plain vanish limit' (snd e)) es
         end
  end.

Definition plain_table (vanish : bool) (limit : option nat) (n : node) : bool :=
  match n with
  | File _ => true
  | Dir _ deny es =>
      is_none deny && unique (map fst es)
      && forallb (fun e => plain vanish limit (snd e)) es
  end.

Definition plain_keyspace (vanish : bool) (limit : option nat) (e : entry) : bool :=
  mem (fst e) system_keyspaces
  || match snd e with
     | File _ => true
     | Dir _ deny es =>
         is_none deny && forallb (fun e => plain_table vanish limit (snd e)) es
     end.

Definition plain_base (vanish : bool) (limit : option nat) (base : node) : bool :=
  match base with
  | File _ => false
  | Dir _ deny es => is_none deny && forallb (plain_keyspace vanish limit) es
  end.

(** A static tree: nothing fails on the host.  A raced tree: files may have
    gone between the listing and the read. *)
Definition static_tree (h : host) : node -> bool := plain_base false (walk_limit h).

Definition raced_tree (h : host) : node -> bool := plain_base true (walk_limit h).

(** ** Trees that differ where the scan does not look *)

(** [f] applied to every entry of a directory. *)
Definition map_entries (f : node -> node) (n : node) : node :=
  match n with
  | File st => File st
  | Dir lnk deny es => Dir lnk deny (map (fun e => (fst e, f (snd e))) es)
  end.

(** Two entries of the base directory with the same name that are both
    directories or both not, and that are the same entry unless the name is
    that of a system keyspace. *)
Definition same_outside_excluded (e e' : entry) : Prop :=
  fst e = fst e'
  /\ is_dir (snd e) = is_dir (snd e')
  /\ (mem (fst e) system_keyspaces = false -> snd e = snd e').

(** The same directory, not reached through a link. *)
Definition as_real (n : node) : node :=
  match n with
  | File st => File st
  | Dir _ deny es => Dir false deny es
  end.

(** The tree in which the keyspace and table directories reached through
    links are real directories with the same contents. *)
Definition real_top_levels (base : node) : node :=
  map_entries (fun ks => as_real (map_entries as_real ks)) base.

(** An entry inside a table directory, with every directory reached through
    a link emptied. *)
Fixpoint prune (n : node) : node :=
  match n with
  | File st => File st
  | Dir lnk deny es =>
      if lnk then Dir true None []
      else Dir false deny (map (fun e => (fst e, prune (snd e))) es)
  end.

(** The tree in which every directory reached through a link below a table
    directory is emptied. *)
Definition prune_deep_links (base : node) : node :=
  map_entries (map_entries (map_entries prune)) base.

(** ** Sample trees *)

(** Seconds since the epoch in decimal, standing for the rendering of a
    time in the examples; like [datetime] it has no year 10000. *)
Definition epoch_seconds (t : mtime_t) : exn + string :=
  if t <? 253402300800 then inr (NilZero.string_of_int (Z.to_int t))
  else inl (Exn OtherError "year 10000 is out of range").

(** A host whose [os.walk] is the recursive generator, with room for 990
    levels below the top, and one whose [os.walk] is a loop. *)
Definition host_311 : host :=
  Host epoch_seconds (Some 990%nat)
       "maximum recursion depth exceeded".

Definition host_312 : host :=
  Host epoch_seconds None
       "maximum recursion depth exceeded".

(** A host on which [os.walk] can descend two levels and no more. *)
Definition host_two_deep : host :=
  Host epoch_seconds (Some 2%nat)
       "maximum recursion depth exceeded".

Definition eacces (path : string) : exn :=
  Exn PermissionError ("[Errno 13] Permission denied: '" ++ path ++ "'")%string.

Definition enoent (path : string) : exn :=
  Exn FileNotFoundError ("[Errno 2] No such file or directory: '" ++ path ++ "'")%string.

Definition sample_tree : node :=
  Dir false None
    [("system", Dir false None
        [("local-7a", Dir false None [("Data.db", File (inr 1))])]);
     ("notes.txt", File (inr 2));
     ("shop", Dir false None
        [("orders-a1", Dir false None
            [("Data.db", File (inr 300));
             ("Index.db", File (inr 5));
             ("snapshots", Dir false None
                [("s1", Dir false None [("Data.db", File (inr 100))])])]);
         ("users-b2", Dir false None [("Data.db", File (inr 200))]);
         ("Data.db", File (inr 3))])].

(** The tree of [sample_tree] with other contents in its system keyspace. *)
Definition sample_tree_other_system : node :=
  Dir false None
    [("system", Dir true (Some (eacces "/mnt/cassandra/system")) []);
     ("notes.txt", File (inr 2));
     ("shop", Dir false None
        [("orders-a1", Dir false None
            [("Data.db", File (inr 300));
             ("Index.db", File (inr 5));
             ("snapshots", Dir false None
                [("s1", Dir false None [("Data.db", File (inr 100))])])]);
         ("users-b2", Dir false None [("Data.db", File (inr 200))]);
         ("Data.db", File (inr 3))])].

(** The table directory [orders-a1] holds the oldest file and cannot be
    listed. *)
Definition denied_table_tree : node :=
  Dir false None
    [("shop", Dir false None
        [("orders-a1", Dir false (Some (eacces "/mnt/cassandra/shop/orders-a1"))
            [("Data.db", File (inr 100))]);
         ("users-b2", Dir false None [("Data.db", File (inr 200))])])].

(** The same denial deeper in the table, on the directory [snapshots]. *)
Definition denied_subdirectory_tree : node :=
  Dir false None
    [("shop", Dir false None
        [("orders-a1", Dir false None
            [("Data.db", File (inr 300));
             ("snapshots",
              Dir false (Some (eacces "/mnt/cassandra/shop/orders-a1/snapshots"))
                [("Data.db", File (inr 100))])])])].

(** The same denial one level up, on the keyspace directory. *)
Definition denied_keyspace_tree : node :=
  Dir false None
    [("shop", Dir false (Some (eacces "/mnt/cassandra/shop"))
        [("orders-a1", Dir false None [("Data.db", File (inr 100))])]);
     ("blog", Dir false None
        [("posts-c3", Dir false None [("Data.db", File (inr 200))])])].

(** The [Data.db] of [orders-a1] is listed but its modification time cannot
    be read for lack of permission. *)
Definition unreadable_file_tree : node :=
  Dir false None
    [("shop", Dir false None
        [("orders-a1", Dir false None
            [("Data.db", File (inl (eacces "/mnt/cassandra/shop/orders-a1/Data.db")))]);
         ("users-b2", Dir false None [("Data.db", File (inr 200))])])].

(** A file that vanished is passed over and the next table is still
    scanned. *)
Definition vanished_file_tree : node :=
  Dir false None
    [("shop", Dir false None
        [("orders-a1", Dir false None
            [("Data.db", File (inl (enoent "/mnt/cassandra/shop/orders-a1/Data.db")))]);
         ("users-b2", Dir false None [("Data.db", File (inr 200))])])].

(** Two tables hold a [Data.db] with the same, least, modification time. *)
Definition tie_tree : node :=
  Dir false None
    [("shop", Dir false None
        [("returns-d4", Dir false None [("Data.db", File (inr 150))]);
         ("orders-a1", Dir false None [("Data.db", File (inr 100))]);
         ("users-b2", Dir false None [("Data.db", File (inr 100))])])].

(** [tie_tree] with the two tables of the tie listed the other way round. *)
Definition swapped_tie_tree : node :=
  Dir false None
    [("shop", Dir false None
        [("returns-d4", Dir false None [("Data.db", File (inr 150))]);
         ("users-b2", Dir false None [("Data.db", File (inr 100))]);
         ("orders-a1", Dir false None [("Data.db", File (inr 100))])])].

(** Two files whose modification times lie in the year 10000, beyond what
    [datetime] can hold. *)
Definition far_future_tree : node :=
  Dir false None
    [("shop", Dir false None
        [("orders-a1", Dir false None [("Data.db", File (inr 253402300800))]);
         ("users-b2", Dir false None [("Data.db", File (inr 253402300900))])])].

(** Every keyspace of the tree is a system keyspace. *)
Definition system_only_tree : node :=
  Dir false None
    [("system", Dir false None
        [("local-7a", Dir false None [("Data.db", File (inr 1))])]);
     ("system_auth", Dir false None
        [("roles-5b", Dir false None [("Data.db", File (inr 2))])])].

(** No file of the tree is named [Data.db]; the directory of that name does
    not count. *)
Definition no_match_tree : node :=
  Dir false None
    [("shop", Dir false None
        [("orders-a1", Dir false None
            [("Index.db", File (inr 5));
             ("data.db", File (inr 6));
             ("Data.db", Dir false None [("Summary.db", File (inr 7))])])])].

(** A table directory reached through a link, holding a link to a directory
    with the oldest [Data.db] of the tree. *)
Definition linked_tree : node :=
  Dir false None
    [("shop", Dir true None
        [("orders-a1", Dir true None
            [("Data.db", File (inr 300));
             ("backup", Dir true None [("Data.db", File (inr 10))]);
             ("snapshots", Dir false None [("Data.db", File (inr 100))])])])].

(** * Notions used in the further properties *)

(** An event that raises nothing out of the [try] block. *)
Definition nonfatal (ev : event) : Prop := fatal ev = None.

(** A computation of the [try] block that raises does so on its last
    event, the only fatal one; one that returns has logged none. *)
Definition clean {A} (m : M A) : Prop :=
  match snd m with
  | inl e =>
      exists tr ev, fst m = tr ++ [ev] /\ fatal ev = Some e /\ Forall nonfatal tr
  | inr _ => Forall nonfatal (fst m)
  end.

(** Two walks under which the loop of lines 47-62 does the same: the same
    ending, and the same reads from any running minimum. *)
Definition same_visits (a b : walked) : Prop :=
  snd a = snd b
  /\ forall s, for_each (fst a) visit s = for_each (fst b) visit s.

(** The path a library call was made on. *)
Definition event_path (ev : event) : option string :=
  match ev with
  | Isdir p _ | Listdir p _ | Walk p | WalkRaised p _ | Getmtime p _ => Some p
  | Print _ => None
  end.

(** [s.startswith(p)] *)
Fixpoint starts_with (p s : string) : bool :=
  match p, s with
  | EmptyString, _ => true
  | String a p', String b s' => Ascii.eqb a b && starts_with p' s'
  | String _ _, EmptyString => false
  end.

(** The path lies strictly below [/mnt/cassandra]. *)
Definition inside (p : string) : bool :=
  starts_with (base_cassandra_path ++ "/")%string p.

(** No name in the tree starts with the separator (a listing returns bare
    names). *)
Fixpoint relative_names (n : node) : bool :=
  match n with
  | File _ => true
  | Dir _ _ es =>
      forallb (fun e => negb (starts_with_sep (fst e)) && relative_names (snd e)) es
  end.

(** The entries of a listing that are directories. *)
Definition only_dirs (es : list entry) : list entry :=
  filter (fun e => is_dir (snd e)) es.

(** A keyspace directory without the non-directories it lists. *)
Definition without_stray_files (ks : node) : node :=
  match ks with
  | File st => File st
  | Dir lnk deny es => Dir lnk deny (only_dirs es)
  end.

(** The tree without the non-directories listed in the base directory and
    in the keyspace directories. *)
Definition without_strays (base : node) : node :=
  match base with
  | File st => File st
  | Dir lnk deny es =>
      Dir lnk deny (map (fun e => (fst e, without_stray_files (snd e))) (only_dirs es))
  end.

(** A directory, with every directory in it that cannot be listed made a
    listable, empty one. *)
Fixpoint open_denied (n : node) : node :=
  match n with
  | File st => File st
  | Dir lnk (Some _) _ => Dir lnk None []
  | Dir lnk None es => Dir lnk None (map (fun e => (fst e, open_denied (snd e))) es)
  end.

(** The tree in which every table directory, and every directory below one,
    that cannot be listed is a listable, empty one. *)
Definition open_denied_tables (base : node) : node :=
  map_entries (map_entries open_denied) base.

(** The keyspace [shop] went away between the check and the listing. *)
Definition vanished_keyspace_tree : node :=
  Dir false None
    [("blog", Dir false None
        [("posts-c3", Dir false None [("Data.db", File (inr 200))])]);
     ("shop", Dir false (Some (enoent "/mnt/cassandra/shop"))
        [("orders-a1", Dir false None [("Data.db", File (inr 100))])])].

(** The files of [sample_tree] (strays apart) listed in another order. *)
Definition reordered_sample_tree : node :=
  Dir false None
    [("shop", Dir false None
        [("users-b2", Dir false None [("Data.db", File (inr 200))]);
         ("orders-a1", Dir false None
            [("snapshots", Dir false None
                [("s1", Dir false None [("Data.db", File (inr 100))])]);
             ("Data.db", File (inr 300))])]);
     ("system", Dir false None [])].

(** A tree with faults of every kind that do not end the scan. *)
Definition rough_tree : node :=
  Dir false None
    [("shop", Dir true None
        [("orders-a1", Dir false (Some (eacces "/mnt/cassandra/shop/orders-a1"))
            [("Data.db", File (inr 1))]);
         ("users-b2", Dir false None
            [("Data.db", File (inl (enoent "/mnt/cassandra/shop/users-b2/Data.db")));
             ("old", Dir false None [("Data.db", File (inr 200))]);
             ("new", Dir false None [("Data.db", File (inr 250))]);
             ("away", Dir true None [("Data.db", File (inr 2))])])])].

(** A table directory named like a system keyspace, inside a keyspace that
    is not excluded, with its [Data.db] three levels down. *)
Definition deep_tree : node :=
  Dir false None
    [("shop", Dir false None
        [("system", Dir false None
            [("a", Dir false None
                [("b", Dir false None
                    [("c", Dir false None [("Data.db", File (inr 42))])])])])])].

(** * Lemmas *)

Section Helpers.

Variable h : host.

(** ** Induction on trees *)

Lemma node_ind' (P : node -> Prop) :
  (forall st, P (File st)) ->
  (forall lnk deny es, Forall (fun e => P (snd e)) es -> P (Dir lnk deny es)) ->
  forall n, P n.
Proof.
  intros HF HD.
  apply (node_rect' P (Forall (fun e => P (snd e)))); auto.
Qed.

(** ** Paths *)

Lemma basename_from_app (a b acc : string) :
  basename_from acc (a ++ b)%string = basename_from (basename_from acc a) b.
Proof.
  revert acc. induction a as [|c a IH]; intros acc; simpl; [reflexivity|].
  destruct (Ascii.eqb c "/"); apply IH.
Qed.

Lemma ends_with_sep_basename (a acc : string) :
  ends_with_sep a = true -> basename_from acc a = "".
Proof.
  revert acc. induction a as [|c a IH]; intros acc H; simpl in *; [discriminate|].
  destruct a as [|c' a'].
  - rewrite H. reflexivity.
  - destruct (Ascii.eqb c "/"); apply IH; exact H.
Qed.

Lemma join_Data_db (root : string) :
  os_path_join root "Data.db" = (root ++ "Data.db")%string
  \/ os_path_join root "Data.db" = (root ++ "/Data.db")%string.
Proof.
  unfold os_path_join. simpl starts_with_sep. cbv iota.
  destruct ((root =? "")%string || ends_with_sep root); auto.
Qed.

Lemma basename_join_Data_db (root : string) :
  os_path_basename (os_path_join root "Data.db") = "Data.db".
Proof.
  unfold os_path_basename, os_path_join. simpl starts_with_sep. cbv iota.
  destruct (root =? "")%string eqn:E; simpl orb.
  - apply String.eqb_eq in E. subst. reflexivity.
  - destruct (ends_with_sep root) eqn:S; rewrite basename_from_app.
    + rewrite (ends_with_sep_basename _ _ S). reflexivity.
    + reflexivity.
Qed.

Lemma join_Data_db_nonempty (root : string) :
  (os_path_join root "Data.db" =? "")%string = false.
Proof.
  apply String.eqb_neq. intros H.
  destruct (join_Data_db root) as [E|E]; rewrite E in H;
    destruct root; discriminate H.
Qed.

(** ** The monad *)

Lemma bind_inr {A B} (m : M A) (k : A -> M B) tr b :
  bind m k = (tr, inr b) ->
  exists tr1 a tr2, m = (tr1, inr a) /\ k a = (tr2, inr b) /\ tr = tr1 ++ tr2.
Proof.
  destruct m as [tr1 [e|a]]; simpl; [discriminate|].
  destruct (k a) as [tr2 r] eqn:K. intros H. inversion H; subst.
  exists tr1, a, tr2. auto.
Qed.

(** Events of a loop come from its iterations. *)
Lemma for_each_event {A S} (body : S -> A -> M S) ev xs :
  forall s, In ev (fst (for_each xs body s)) ->
  exists x s', In x xs /\ In ev (fst (body s' x)).
Proof.
  induction xs as [|x xs IH]; intros s H; simpl in H; [contradiction|].
  destruct (body s x) as [tr1 [e|s1]] eqn:B; simpl in H.
  - exists x, s. rewrite B. simpl. auto.
  - destruct (for_each xs body s1) as [tr2 r] eqn:F. simpl in H.
    apply in_app_or in H. destruct H as [H|H].
    + exists x, s. rewrite B. simpl. auto.
    + assert (H' : In ev (fst (for_each xs body s1))) by (rewrite F; exact H).
      destruct (IH _ H') as (y & s' & Hy & He). exists y, s'. simpl. auto.
Qed.

(** A loop whose iterations all return, returns, and contains the events of
    each iteration from some state. *)
Lemma for_each_returns {A S} (body : S -> A -> M S) xs :
  (forall x s, In x xs -> exists tr s', body s x = (tr, inr s')) ->
  forall s, exists tr s', for_each xs body s = (tr, inr s').
Proof.
  induction xs as [|x xs IH]; intros Hb s; simpl.
  - exists [], s. reflexivity.
  - destruct (Hb x s (or_introl eq_refl)) as (tr1 & s1 & B). rewrite B. simpl.
    destruct (IH (fun y s Hy => Hb y s (or_intror Hy)) s1) as (tr2 & s2 & F).
    rewrite F. eauto.
Qed.

Lemma for_each_covers {A S} (body : S -> A -> M S) xs :
  (forall x s, In x xs -> exists tr s', body s x = (tr, inr s')) ->
  forall x s, In x xs ->
  exists s', incl (fst (body s' x)) (fst (for_each xs body s)).
Proof.
  induction xs as [|y xs IH]; intros Hb x s Hx; [contradiction|].
  simpl. destruct (Hb y s (or_introl eq_refl)) as (tr1 & s1 & B). rewrite B. simpl.
  destruct (for_each xs body s1) as [tr2 r] eqn:F. simpl.
  destruct Hx as [->|Hx].
  - exists s. rewrite B. simpl. apply incl_appl, incl_refl.
  - destruct (IH (fun z s Hz => Hb z s (or_intror Hz)) x s1 Hx) as (s' & I).
    exists s'. rewrite F in I. simpl in I. apply incl_appr, I.
Qed.

(** Two loops that agree iteration by iteration agree. *)
Lemma for_each_ext {A S} (R : A -> A -> Prop) (body body' : S -> A -> M S) xs ys :
  Forall2 R xs ys ->
  (forall x y s, R x y -> body s x = body' s y) ->
  forall s, for_each xs body s = for_each ys body' s.
Proof.
  intros H Hb. induction H as [|x y xs ys Hxy _ IH]; intros s; simpl; [reflexivity|].
  rewrite (Hb x y s Hxy). destruct (body' s y) as [tr [e|s1]]; simpl; [reflexivity|].
  rewrite IH. reflexivity.
Qed.

(** ** The reduction *)

Lemma candidates_app (a b : list event) :
  candidates (a ++ b) = candidates a ++ candidates b.
Proof. apply flat_map_app. Qed.

Lemma in_candidates (tr : list event) p t :
  In (p, t) (candidates tr) <-> In (Getmtime p (inr t)) tr.
Proof.
  unfold candidates. rewrite in_flat_map. split.
  - intros (ev & Hev & Hin). destruct ev as [| | | |q [e|u]|]; simpl in Hin; try contradiction.
    destruct Hin as [E|[]]. inversion E; subst. exact Hev.
  - intros H. exists (Getmtime p (inr t)). simpl. auto.
Qed.

(** What one iteration over [os.walk] does, case by case. *)
Lemma visit_cases (s : state) root dirs files :
  visit s (root, dirs, files) =
  match lookup "Data.db" files with
  | None => ([], inr s)
  | Some (inr t) =>
      ([Getmtime (os_path_join root "Data.db") (inr t)],
       inr (step s (os_path_join root "Data.db", t)))
  | Some (inl e) =>
      ([Getmtime (os_path_join root "Data.db") (inl e)],
       if is_FileNotFoundError e then inr s else inl e)
  end.
Proof.
  unfold visit. destruct (lookup "Data.db" files) as [[e|t]|]; try reflexivity.
  - simpl. destruct (is_FileNotFoundError e); reflexivity.
  - simpl. unfold step. simpl. destruct (older t (oldest_file_time s)); reflexivity.
Qed.

Lemma reducing_run (m : state -> M state) s s' :
  reducing m -> snd (m s) = inr s' ->
  s' = fold_left step (candidates (fst (m s))) s.
Proof.
  intros R H. apply R. rewrite <- H. apply surjective_pairing.
Qed.

Lemma for_each_reducing {A} (body : state -> A -> M state) xs :
  (forall x, reducing (fun s => body s x)) -> reducing (for_each xs body).
Proof.
  intros Hb. induction xs as [|x xs IH]; intros s tr s' H; simpl in H.
  - inversion H; subst. reflexivity.
  - apply bind_inr in H. destruct H as (tr1 & s1 & tr2 & B & F & ->).
    rewrite candidates_app, fold_left_app.
    rewrite <- (Hb x _ _ _ B). apply IH, F.
Qed.

Lemma visit_reducing item : reducing (fun s => visit s item).
Proof.
  destruct item as [[root dirs] files]. intros s tr s'. rewrite visit_cases.
  destruct (lookup "Data.db" files) as [[e|t]|]; intros H.
  - destruct (is_FileNotFoundError e); inversion H; subst. reflexivity.
  - inversion H; subst. reflexivity.
  - inversion H; subst. reflexivity.
Qed.

(** The two outer loop bodies, case by case. *)
Lemma table_loop_cases keyspace_path s table_dir n :
  table_loop h keyspace_path s (table_dir, n) =
  let table_path := os_path_join keyspace_path table_dir in
  if is_dir n
  then (Isdir table_path true :: Walk table_path
          :: fst (walk_loop h table_path n s),
        snd (walk_loop h table_path n s))
  else ([Isdir table_path false], inr s).
Proof.
  unfold table_loop, os_path_isdir, os_walk. unfold bind at 1 2.
  destruct (is_dir n); cbv zeta; cbn [negb fst snd]; [|reflexivity].
  fold (walk_loop h (os_path_join keyspace_path table_dir) n s).
  destruct (walk_loop h (os_path_join keyspace_path table_dir) n s). reflexivity.
Qed.

Lemma keyspace_loop_cases s keyspace n :
  keyspace_loop h s (keyspace, n) =
  let keyspace_path := os_path_join base_cassandra_path keyspace in
  if negb (is_dir n) || mem keyspace system_keyspaces
  then ([Isdir keyspace_path (is_dir n)], inr s)
  else match n with
       | Dir _ None es =>
           (Isdir keyspace_path true :: Listdir keyspace_path None
              :: fst (for_each es (table_loop h keyspace_path) s),
            snd (for_each es (table_loop h keyspace_path) s))
       | Dir _ (Some e) _ =>
           ([Isdir keyspace_path true; Listdir keyspace_path (Some e)], inl e)
       | File _ => ([Isdir keyspace_path false], inr s)
       end.
Proof.
  unfold keyspace_loop, os_path_isdir, bind. cbv zeta.
  destruct n as [st|lnk [e|] es]; cbn [is_dir negb orb]; try reflexivity.
  - destruct (mem keyspace system_keyspaces); reflexivity.
  - destruct (mem keyspace system_keyspaces); cbn [os_listdir]; cbv beta; [reflexivity|].
    destruct (for_each es _ s); reflexivity.
Qed.

Lemma scan_cases base :
  scan h base =
  match base with
  | Dir _ None es =>
      (Listdir base_cassandra_path None :: fst (for_each es (keyspace_loop h) initial),
       snd (for_each es (keyspace_loop h) initial))
  | Dir _ (Some e) _ => ([Listdir base_cassandra_path (Some e)], inl e)
  | File _ =>
      ([Listdir base_cassandra_path (Some (not_a_directory base_cassandra_path))],
       inl (not_a_directory base_cassandra_path))
  end.
Proof.
  unfold scan, bind. destruct base as [st|lnk [e|] es]; cbn [os_listdir]; cbv beta;
    try reflexivity.
  destruct (for_each es _ initial); reflexivity.
Qed.

Lemma walk_loop_reducing table_path n : reducing (walk_loop h table_path n).
Proof.
  intros s tr s' H. unfold walk_loop in H. apply bind_inr in H.
  destruct H as (tr1 & s1 & tr2 & F & X & ->). unfold exhaust in X.
  destruct (snd (walk _ _ table_path n)); [discriminate X|].
  inversion X; subst. rewrite app_nil_r.
  apply (for_each_reducing visit _ visit_reducing _ _ _ F).
Qed.

Lemma table_loop_reducing keyspace_path e :
  reducing (fun s => table_loop h keyspace_path s e).
Proof.
  destruct e as [table_dir n]. intros s tr s'. rewrite table_loop_cases. cbv zeta.
  destruct (is_dir n); intros H; inversion H; subst; [|reflexivity].
  exact (reducing_run (walk_loop h _ n) s s' (walk_loop_reducing _ n) H2).
Qed.

Lemma keyspace_loop_reducing e : reducing (fun s => keyspace_loop h s e).
Proof.
  destruct e as [keyspace n]. intros s tr s'. rewrite keyspace_loop_cases. cbv zeta.
  destruct (negb (is_dir n) || mem keyspace system_keyspaces).
  - intros H; inversion H; subst. reflexivity.
  - destruct n as [st|lnk [e|] es]; intros H; inversion H; subst; try reflexivity.
    exact (reducing_run (for_each _ (table_loop h _)) s s'
             (for_each_reducing _ _ (table_loop_reducing _)) H2).
Qed.

Lemma scan_reduces base tr s :
  scan h base = (tr, inr s) -> s = fold_left step (candidates tr) initial.
Proof.
  rewrite scan_cases.
  destruct base as [st|lnk [e|] es]; intros H; inversion H; subst.
  exact (reducing_run (for_each _ (keyspace_loop h)) initial s
           (for_each_reducing _ _ keyspace_loop_reducing) H2).
Qed.

(** The running minimum over a list of candidates. *)
Lemma fold_step_not_older cs p t :
  (forall c, In c cs -> t <= snd c) ->
  fold_left step cs (State (Some p) (Fin t)) = State (Some p) (Fin t).
Proof.
  induction cs as [|c cs IH]; intros H; simpl; [reflexivity|].
  unfold step at 2. simpl.
  assert (E : (snd c <? t) = false) by (apply Z.ltb_ge, H; left; reflexivity).
  rewrite E. apply IH. intros c' Hc'. apply H. right. exact Hc'.
Qed.

Lemma fold_step_time cs s :
  oldest_file_time (fold_left step cs s) = oldest_file_time s
  \/ exists c, In c cs /\ oldest_file_time (fold_left step cs s) = Fin (snd c).
Proof.
  revert s. induction cs as [|c cs IH]; intros s; simpl; [left; reflexivity|].
  destruct (IH (step s c)) as [E|(c' & Hc' & E)].
  - rewrite E. unfold step. destruct (older (snd c) (oldest_file_time s)); simpl.
    + right. exists c. auto.
    + left. reflexivity.
  - right. exists c'. auto.
Qed.

Lemma first_least_fold p t cs :
  first_least p t cs -> fold_left step cs initial = State (Some p) (Fin t).
Proof.
  intros (before & after & -> & Hb & Ha).
  rewrite fold_left_app. simpl.
  assert (O : older t (oldest_file_time (fold_left step before initial)) = true).
  { destruct (fold_step_time before initial) as [E|(c & Hc & E)]; rewrite E; simpl.
    - reflexivity.
    - apply Z.ltb_lt, Hb, Hc. }
  unfold step at 2. simpl. rewrite O. apply fold_step_not_older, Ha.
Qed.

Lemma first_least_exists cs :
  cs <> [] -> exists p t, first_least p t cs.
Proof.
  induction cs as [|[q u] cs IH]; intros H; [congruence|].
  destruct cs as [|c cs'].
  - exists q, u, [], []. simpl. repeat split; intros c [].
  - destruct IH as (p & t & before & after & E & Hb & Ha); [discriminate|].
    rewrite E. destruct (Z_le_gt_dec u t) as [L|G].
    + exists q, u, [], (before ++ (p, t) :: after). repeat split.
      * intros c0 [].
      * intros c0 Hc0. apply in_app_or in Hc0. destruct Hc0 as [Hc0|[<-|Hc0]].
        -- specialize (Hb _ Hc0). lia.
        -- exact L.
        -- specialize (Ha _ Hc0). lia.
    + exists p, t, ((q, u) :: before), after. repeat split.
      * intros c0 [<-|Hc0]; [simpl; lia|apply Hb, Hc0].
      * exact Ha.
Qed.

Lemma first_least_in p t cs : first_least p t cs -> In (p, t) cs.
Proof.
  intros (before & after & -> & _). apply in_or_app. right. left. reflexivity.
Qed.

Lemma first_least_le p t cs c : first_least p t cs -> In c cs -> t <= snd c.
Proof.
  intros (before & after & -> & Hb & Ha) H. apply in_app_or in H.
  destruct H as [H|[<-|H]].
  - specialize (Hb _ H). lia.
  - simpl. lia.
  - apply Ha, H.
Qed.

(** ** Events of a scan *)

Lemma printed_app a b : printed (a ++ b) = printed a ++ printed b.
Proof. apply flat_map_app. Qed.

Lemma printed_map_Print ls : printed (map Print ls) = ls.
Proof. induction ls as [|l ls IH]; simpl; [reflexivity|]. f_equal. exact IH. Qed.

Lemma print_all_run ls : print_all ls = (map Print ls, inr tt).
Proof.
  induction ls as [|l ls IH]; [reflexivity|].
  simpl. rewrite IH. reflexivity.
Qed.

Lemma visit_event s root dirs files ev :
  In ev (fst (visit s (root, dirs, files))) ->
  exists st, lookup "Data.db" files = Some st
             /\ ev = Getmtime (os_path_join root "Data.db") st.
Proof.
  rewrite visit_cases. destruct (lookup "Data.db" files) as [[e|t]|]; simpl.
  - intros [<-|[]]. eauto.
  - intros [<-|[]]. eauto.
  - intros [].
Qed.

Lemma walk_loop_event table_path n s ev :
  In ev (fst (walk_loop h table_path n s)) ->
  (exists e, ev = WalkRaised table_path e
             /\ snd (walk (recursion_error h) (walk_limit h) table_path n) = Some e)
  \/ exists root dirs files st,
       In (root, dirs, files)
          (fst (walk (recursion_error h) (walk_limit h) table_path n))
       /\ lookup "Data.db" files = Some st
       /\ ev = Getmtime (os_path_join root "Data.db") st.
Proof.
  unfold walk_loop. intros H.
  assert (V : In ev (fst (for_each
                            (fst (walk (recursion_error h) (walk_limit h) table_path n))
                            visit s)) ->
              exists root dirs files st,
                In (root, dirs, files)
                   (fst (walk (recursion_error h) (walk_limit h) table_path n))
                /\ lookup "Data.db" files = Some st
                /\ ev = Getmtime (os_path_join root "Data.db") st).
  { intros K. apply for_each_event in K.
    destruct K as ([[root dirs] files] & s' & Hx & He).
    apply visit_event in He. destruct He as (st & L & ->).
    exists root, dirs, files, st. auto. }
  destruct (for_each _ visit s) as [tr1 [e1|s1]]; cbn [bind fst] in *; [auto|].
  unfold exhaust in H.
  destruct (snd (walk (recursion_error h) (walk_limit h) table_path n)) as [e|];
    cbn [ret fst] in H; apply in_app_or in H; destruct H as [H|H]; auto.
  - destruct H as [<-|[]]. left. eauto.
  - destruct H.
Qed.

Lemma table_loop_event keyspace_path s table_dir n ev :
  In ev (fst (table_loop h keyspace_path s (table_dir, n))) ->
  let table_path := os_path_join keyspace_path table_dir in
  ev = Isdir table_path (is_dir n)
  \/ is_dir n = true
     /\ (ev = Walk table_path
         \/ (exists e, ev = WalkRaised table_path e)
         \/ exists root dirs files st,
              In (root, dirs, files)
                 (fst (walk (recursion_error h) (walk_limit h) table_path n))
              /\ lookup "Data.db" files = Some st
              /\ ev = Getmtime (os_path_join root "Data.db") st).
Proof.
  rewrite table_loop_cases. cbv zeta. destruct (is_dir n); cbn [fst].
  - intros [<-|[<-|H]]; auto. right. split; [reflexivity|]. right.
    apply walk_loop_event in H. destruct H as [(e & -> & _)|H]; eauto.
  - intros [<-|[]]. auto.
Qed.

Lemma keyspace_loop_event s keyspace n ev :
  In ev (fst (keyspace_loop h s (keyspace, n))) ->
  let keyspace_path := os_path_join base_cassandra_path keyspace in
  ev = Isdir keyspace_path (is_dir n)
  \/ mem keyspace system_keyspaces = false
     /\ exists lnk deny es, n = Dir lnk deny es
        /\ (ev = Listdir keyspace_path deny
            \/ deny = None
               /\ exists table_dir tb s',
                    In (table_dir, tb) es
                    /\ In ev (fst (table_loop h keyspace_path s' (table_dir, tb)))).
Proof.
  rewrite keyspace_loop_cases. cbv zeta.
  destruct n as [st|lnk [e|] es]; cbn [is_dir negb orb].
  - simpl. intros [<-|[]]. auto.
  - destruct (mem keyspace system_keyspaces); simpl.
    + intros [<-|[]]. auto.
    + intros [<-|[<-|[]]]; auto. right. split; [reflexivity|].
      exists lnk, (Some e), es. auto.
  - destruct (mem keyspace system_keyspaces); simpl.
    + intros [<-|[]]. auto.
    + intros [<-|[<-|H]]; auto.
      * right. split; [reflexivity|]. exists lnk, None, es. auto.
      * right. split; [reflexivity|]. exists lnk, None, es. split; [reflexivity|].
        right. split; [reflexivity|].
        apply for_each_event in H. destruct H as ([table_dir tb] & s' & Hx & He).
        exists table_dir, tb, s'. auto.
Qed.

Lemma scan_events base ev : In ev (fst (scan h base)) -> scan_event ev.
Proof.
  rewrite scan_cases. destruct base as [st|lnk [e|] es]; simpl.
  - intros [<-|[]]. exact I.
  - intros [<-|[]]. exact I.
  - intros [<-|H]; [exact I|].
    apply for_each_event in H. destruct H as ([keyspace n] & s' & _ & He).
    apply keyspace_loop_event in He. cbv zeta in He.
    destruct He as [->|(_ & lnk' & deny & es' & _ & [->|(_ & table_dir & tb & s'' & _ & He)])];
      try exact I.
    apply table_loop_event in He. cbv zeta in He.
    destruct He as [->|(_ & [->|[(e0 & ->)|(root & dirs & files & st & _ & _ & ->)]])];
      try exact I.
    simpl. eauto.
Qed.

Lemma scan_prints_nothing base : printed (fst (scan h base)) = [].
Proof.
  assert (H : forall tr, (forall ev, In ev tr -> scan_event ev) -> printed tr = []).
  { induction tr as [|ev tr IH]; intros H; [reflexivity|].
    simpl. destruct ev; try (apply IH; intros; apply H; right; assumption).
    exfalso. apply (H (Print line)). left. reflexivity. }
  apply H, scan_events.
Qed.

Lemma scan_candidate_path base p t :
  In (p, t) (candidates (fst (scan h base))) ->
  exists root, p = os_path_join root "Data.db".
Proof.
  intros H. apply in_candidates in H. apply scan_events in H. exact H.
Qed.

(** ** The whole function, case by case *)

Abbreviation run := (find_oldest_sstable_globally h).

Lemma run_missing base :
  is_dir base = false ->
  run base = (Isdir base_cassandra_path false :: map Print report_missing, inr tt).
Proof.
  intros H. unfold find_oldest_sstable_globally, os_path_isdir. rewrite H.
  unfold bind. cbn [negb]. rewrite print_all_run. reflexivity.
Qed.

Lemma run_aborted base tr e :
  is_dir base = true -> scan h base = (tr, inl e) ->
  run base =
  (Isdir base_cassandra_path true :: Print report_scanning :: tr
     ++ map Print (if is_PermissionError e then report_permission e
                   else report_unexpected e),
   inr tt).
Proof.
  intros D S. unfold find_oldest_sstable_globally, os_path_isdir. rewrite D.
  unfold bind at 1 2. cbn [negb print]. unfold bind at 2. rewrite S.
  unfold try_except, is_Exception, handlers, bind, ret.
  destruct (is_PermissionError e); rewrite print_all_run; cbn [app];
    rewrite !app_nil_r; reflexivity.
Qed.

Lemma run_returned base tr s :
  is_dir base = true -> scan h base = (tr, inr s) ->
  run base =
  (Isdir base_cassandra_path true :: Print report_scanning :: tr
     ++ fst (present h s),
   snd (present h s)).
Proof.
  intros D S. unfold find_oldest_sstable_globally, os_path_isdir. rewrite D.
  unfold bind at 1 2. cbn [negb print]. unfold bind at 2. rewrite S.
  unfold try_except, bind, ret. cbn [app]. rewrite app_nil_r.
  destruct (present h s). reflexivity.
Qed.

Lemma scan_returned_dir base tr s : scan h base = (tr, inr s) -> is_dir base = true.
Proof.
  rewrite scan_cases. destruct base as [st|lnk [e|] es]; intros H; inversion H.
  reflexivity.
Qed.

(** A scan that returns without a candidate says so. *)
Lemma run_none base tr s :
  scan h base = (tr, inr s) -> candidates tr = [] ->
  run base =
  (Isdir base_cassandra_path true :: Print report_scanning :: tr
     ++ map Print report_none, inr tt).
Proof.
  intros S C. rewrite (run_returned base tr s (scan_returned_dir _ _ _ S) S).
  pose proof (scan_reduces _ _ _ S) as R. rewrite C in R. simpl in R. subst s.
  reflexivity.
Qed.

(** A scan that returns holds the first of its candidates with the least
    time. *)
Lemma scan_state_found base tr s p t :
  scan h base = (tr, inr s) -> first_least p t (candidates tr) ->
  s = State (Some p) (Fin t).
Proof.
  intros S FL. rewrite (scan_reduces _ _ _ S). apply first_least_fold, FL.
Qed.

(** ... and the run presents it, as far as its time can be rendered. *)
Lemma run_presented base tr s p t :
  scan h base = (tr, inr s) -> first_least p t (candidates tr) ->
  run base =
  match strftime h t with
  | inr text =>
      (Isdir base_cassandra_path true :: Print report_scanning :: tr
         ++ map Print (report_found p text), inr tt)
  | inl e =>
      (Isdir base_cassandra_path true :: Print report_scanning :: tr, inl e)
  end.
Proof.
  intros S FL. rewrite (run_returned base tr s (scan_returned_dir _ _ _ S) S).
  rewrite (scan_state_found _ _ _ _ _ S FL).
  assert (P : exists root, p = os_path_join root "Data.db").
  { apply (scan_candidate_path base p t). rewrite S. apply first_least_in, FL. }
  destruct P as (root & ->).
  unfold present. cbn [oldest_file_path oldest_file_time truthy format_path].
  rewrite join_Data_db_nonempty. cbn [negb readable].
  destruct (strftime h t) as [e|text]; unfold bind, ret, raise.
  - cbn [fst snd]. rewrite app_nil_r. reflexivity.
  - rewrite print_all_run. reflexivity.
Qed.

Lemma run_found base tr s p t text :
  scan h base = (tr, inr s) -> first_least p t (candidates tr) ->
  strftime h t = inr text ->
  run base =
  (Isdir base_cassandra_path true :: Print report_scanning :: tr
     ++ map Print (report_found p text), inr tt).
Proof. intros S FL R. rewrite (run_presented _ _ _ _ _ S FL), R. reflexivity. Qed.

Lemma run_unrendered base tr s p t e :
  scan h base = (tr, inr s) -> first_least p t (candidates tr) ->
  strftime h t = inl e ->
  run base =
  (Isdir base_cassandra_path true :: Print report_scanning :: tr, inl e).
Proof. intros S FL R. rewrite (run_presented _ _ _ _ _ S FL), R. reflexivity. Qed.

Lemma candidates_map_Print ls : candidates (map Print ls) = [].
Proof. induction ls as [|l ls IH]; [reflexivity|exact IH]. Qed.

Lemma run_none_stdout base tr s :
  scan h base = (tr, inr s) -> candidates tr = [] ->
  stdout (run base) = report_scanning :: report_none.
Proof.
  intros S C. rewrite (run_none _ _ _ S C). unfold stdout. cbn [fst printed flat_map app].
  fold (printed (tr ++ map Print report_none)).
  rewrite printed_app, printed_map_Print.
  replace tr with (fst (scan h base)) by (rewrite S; reflexivity).
  rewrite scan_prints_nothing. reflexivity.
Qed.

Lemma run_found_stdout base tr s p t text :
  scan h base = (tr, inr s) -> first_least p t (candidates tr) ->
  strftime h t = inr text ->
  stdout (run base) = report_scanning :: report_found p text.
Proof.
  intros S FL R. rewrite (run_found _ _ _ _ _ _ S FL R). unfold stdout.
  cbn [fst printed flat_map app].
  fold (printed (tr ++ map Print (report_found p text))).
  rewrite printed_app, printed_map_Print.
  replace tr with (fst (scan h base)) by (rewrite S; reflexivity).
  rewrite scan_prints_nothing. reflexivity.
Qed.

Lemma run_unrendered_stdout base tr s p t e :
  scan h base = (tr, inr s) -> first_least p t (candidates tr) ->
  strftime h t = inl e ->
  stdout (run base) = [report_scanning].
Proof.
  intros S FL R. rewrite (run_unrendered _ _ _ _ _ _ S FL R). unfold stdout.
  cbn [fst printed flat_map app]. fold (printed tr).
  replace tr with (fst (scan h base)) by (rewrite S; reflexivity).
  rewrite scan_prints_nothing. reflexivity.
Qed.

(** The candidates of a whole run are those of its scan. *)
Lemma run_candidates base tr s :
  scan h base = (tr, inr s) -> candidates (fst (run base)) = candidates tr.
Proof.
  intros S. rewrite (run_returned base tr s (scan_returned_dir _ _ _ S) S).
  cbn [fst candidates flat_map app].
  fold (candidates (tr ++ fst (present h s))).
  rewrite candidates_app.
  assert (E : candidates (fst (present h s)) = []).
  { unfold present. destruct (truthy (oldest_file_path s)); [|reflexivity].
    destruct (oldest_file_time s) as [z|]; [|reflexivity].
    unfold readable. destruct (strftime h z); [reflexivity|].
    unfold bind, ret. rewrite print_all_run. apply candidates_map_Print. }
  rewrite E. apply app_nil_r.
Qed.

(** ** [os.walk] and the target files *)

Lemma then_walk_in x a b :
  In x (fst (then_walk a b)) -> In x (fst a) \/ In x (fst b).
Proof.
  unfold then_walk. destruct (snd a); cbn [fst]; [auto|]. apply in_app_or.
Qed.

Lemma then_walk_finished a b :
  snd a = None -> then_walk a b = (fst a ++ fst b, snd b).
Proof. unfold then_walk. intros ->. reflexivity. Qed.

Lemma sub_walks_in sub es x :
  In x (fst (sub_walks sub es)) ->
  exists e, In e es /\ is_dir (snd e) = true /\ In x (fst (sub e)).
Proof.
  induction es as [|e es IH]; cbn [sub_walks fold_right]; [intros []|].
  fold (sub_walks sub es). destruct (is_dir (snd e)) eqn:W.
  - intros H. apply then_walk_in in H. destruct H as [H|H].
    + exists e. split; [left; reflexivity|auto].
    + destruct (IH H) as (e' & Hin & He). exists e'. split; [right; exact Hin|exact He].
  - intros H. destruct (IH H) as (e' & Hin & He). exists e'.
    split; [right; exact Hin|exact He].
Qed.

Lemma sub_walks_finished sub es :
  (forall e, In e es -> is_dir (snd e) = true -> snd (sub e) = None) ->
  snd (sub_walks sub es) = None
  /\ forall e x, In e es -> is_dir (snd e) = true -> In x (fst (sub e)) ->
                 In x (fst (sub_walks sub es)).
Proof.
  induction es as [|e es IH]; intros F; cbn [sub_walks fold_right].
  - split; [reflexivity|intros e x []].
  - fold (sub_walks sub es).
    destruct IH as [N I]; [intros e' Hin; apply F; right; exact Hin|].
    destruct (is_dir (snd e)) eqn:W.
    + rewrite then_walk_finished by (apply F; [left; reflexivity|exact W]).
      cbn [fst snd]. split; [exact N|].
      intros e' x [->|Hin] W' Hx; apply in_or_app; [left; exact Hx|right; eauto].
    + split; [exact N|]. intros e' x [->|Hin] W' Hx; [congruence|eauto].
Qed.

Lemma sub_walks_ext sub sub' es :
  (forall e, In e es -> is_dir (snd e) = true -> sub e = sub' e) ->
  sub_walks sub es = sub_walks sub' es.
Proof.
  induction es as [|e es IH]; intros F; cbn [sub_walks fold_right]; [reflexivity|].
  fold (sub_walks sub es) (sub_walks sub' es).
  rewrite IH by (intros e' Hin; apply F; right; exact Hin).
  destruct (is_dir (snd e)) eqn:W; [|reflexivity].
  rewrite F by (auto; left; reflexivity). reflexivity.
Qed.

Lemma walk_Dir stop limit top lnk es :
  walk stop limit top (Dir lnk None es) =
  let rest :=
    sub_walks (fun e : entry =>
                 match lower limit with
                 | None => ([], Some stop)
                 | Some limit' =>
                     if is_link (snd e) then ([], None)
                     else walk stop limit' (os_path_join top (fst e)) (snd e)
                 end) es in
  ((top, dirnames es, nondirs es) :: fst rest, snd rest).
Proof. reflexivity. Qed.

Lemma lookup_nondirs_in name st es :
  lookup name (nondirs es) = Some st -> In (name, File st) es.
Proof.
  induction es as [|[k c] es IH]; simpl; [discriminate|].
  destruct c as [st'|lnk deny es']; simpl.
  - destruct (k =? name)%string eqn:E.
    + apply String.eqb_eq in E. intros H. inversion H; subst. auto.
    + intros H. right. apply IH, H.
  - intros H. right. apply IH, H.
Qed.

Lemma mem_in name l : In name l -> mem name l = true.
Proof.
  intros H. unfold mem. apply existsb_exists. exists name.
  split; [exact H|apply String.eqb_refl].
Qed.

Lemma lookup_nondirs_unique name st es :
  unique (map fst es) = true -> In (name, File st) es ->
  lookup name (nondirs es) = Some st.
Proof.
  induction es as [|[k c] es IH]; intros U H; [contradiction|].
  cbn [map fst unique] in U. apply andb_true_iff in U. destruct U as [N U].
  destruct H as [H|H].
  - inversion H; subst. simpl. rewrite String.eqb_refl. reflexivity.
  - assert (K : (k =? name)%string = false).
    { apply String.eqb_neq. intros ->.
      rewrite (mem_in name (map fst es)) in N; [discriminate|].
      change name with (fst (name, File st)). apply in_map, H. }
    destruct c as [st'|lnk deny es']; simpl; [rewrite K|]; apply IH; assumption.
Qed.

(** Every file [os.walk] hands to the loop is a [Data.db] below the table
    directory. *)
Lemma walk_sound stop n :
  forall limit top root dirs files t,
    In (root, dirs, files) (fst (walk stop limit top n)) ->
    lookup "Data.db" files = Some (inr t) ->
    below top n (os_path_join root "Data.db") t.
Proof.
  induction n as [st|lnk deny es IH] using node_ind';
    intros limit top root dirs files t H L.
  - contradiction.
  - destruct deny as [e|]; [contradiction|].
    rewrite walk_Dir in H. cbv zeta in H. cbn [fst] in H. destruct H as [H|H].
    + inversion H; subst. apply below_here, lookup_nondirs_in, L.
    + apply sub_walks_in in H. destruct H as ([name c] & Hin & W & H).
      cbn [fst snd] in H. destruct (lower limit) as [limit'|]; [|contradiction].
      destruct (is_link c); [contradiction|].
      apply below_deeper with (name := name) (c := c); [exact Hin|].
      rewrite Forall_forall in IH. apply (IH _ Hin limit' _ _ dirs files); assumption.
Qed.

Lemma plain_Dir vanish limit lnk deny es :
  plain vanish limit (Dir lnk deny es) = true ->
  lnk = false
  /\ exists limit', lower limit = Some limit'
                    /\ plain_table vanish limit' (Dir lnk deny es) = true.
Proof.
  cbn [plain plain_table]. intros H.
  repeat (apply andb_true_iff in H; destruct H as [H ?]).
  apply negb_true_iff in H. split; [exact H|].
  destruct (lower limit) as [limit'|]; [|discriminate].
  exists limit'. split; [reflexivity|]. repeat (apply andb_true_iff; split); auto.
Qed.

Lemma plain_table_Dir vanish limit lnk deny es :
  plain_table vanish limit (Dir lnk deny es) = true ->
  deny = None /\ unique (map fst es) = true
  /\ forall name c, In (name, c) es -> plain vanish limit c = true.
Proof.
  cbn [plain_table]. intros H.
  repeat (apply andb_true_iff in H; destruct H as [H ?]).
  destruct deny; [discriminate|]. repeat split; auto.
  intros name c Hin. rewrite forallb_forall in H0. apply (H0 (name, c) Hin).
Qed.

(** In a readable table directory [os.walk] comes to its end without an
    exception ... *)
Lemma walk_finishes vanish stop n :
  forall limit top,
    plain_table vanish limit n = true -> snd (walk stop limit top n) = None.
Proof.
  induction n as [st|lnk deny es IH] using node_ind'; intros limit top P;
    [reflexivity|].
  apply plain_table_Dir in P. destruct P as (-> & U & Pc).
  rewrite walk_Dir. cbv zeta. cbn [snd]. apply sub_walks_finished.
  intros [name c] Hin W. cbn [fst snd] in *.
  pose proof (Pc _ _ Hin) as P. destruct c as [st'|lnk' deny' es']; [discriminate W|].
  apply plain_Dir in P. destruct P as (-> & limit' & -> & Pt). cbn [is_link].
  rewrite Forall_forall in IH. apply (IH _ Hin limit' _ Pt).
Qed.

(** ... having reached every [Data.db]. *)
Lemma walk_complete vanish stop top n p t :
  below top n p t ->
  forall limit, plain_table vanish limit n = true ->
  exists root dirs files,
    In (root, dirs, files) (fst (walk stop limit top n))
    /\ lookup "Data.db" files = Some (inr t)
    /\ p = os_path_join root "Data.db".
Proof.
  induction 1 as [top lnk deny es t Hin|top lnk deny es name c p t Hin Hb IH];
    intros limit P; pose proof P as P0;
    apply plain_table_Dir in P; destruct P as (-> & U & Pc); rewrite walk_Dir;
    cbv zeta; cbn [fst].
  - exists top, (dirnames es), (nondirs es). split; [left; reflexivity|].
    split; [|reflexivity]. apply lookup_nondirs_unique; assumption.
  - pose proof (Pc _ _ Hin) as P. destruct c as [st|lnk' deny' es']; [inversion Hb|].
    apply plain_Dir in P. destruct P as (-> & limit' & L' & Pt).
    destruct (IH limit' Pt) as (root & dirs & files & Hi & L & E).
    exists root, dirs, files. split; [|auto]. right.
    refine (proj2 (sub_walks_finished _ es _) (name, Dir false deny' es') _ Hin
              eq_refl _).
    + intros [k c] Hk Wk. cbn [fst snd] in *.
      pose proof (Pc _ _ Hk) as P. destruct c as [st|lk dk ek]; [discriminate Wk|].
      apply plain_Dir in P. destruct P as (-> & l' & -> & Pk). cbn [is_link].
      apply (walk_finishes vanish), Pk.
    + cbn [fst snd is_link]. rewrite L'. exact Hi.
Qed.

(** ... and every file it reaches can be read. *)
Lemma walk_stat_ok vanish stop n :
  forall limit top root dirs files name st,
    plain_table vanish limit n = true ->
    In (root, dirs, files) (fst (walk stop limit top n)) ->
    lookup name files = Some st ->
    stat_ok vanish st = true.
Proof.
  induction n as [st0|lnk deny es IH] using node_ind';
    intros limit top root dirs files name st P H L; [contradiction|].
  apply plain_table_Dir in P. destruct P as (-> & U & Pc).
  rewrite walk_Dir in H. cbv zeta in H. cbn [fst] in H. destruct H as [H|H].
  - inversion H; subst. apply lookup_nondirs_in in L. apply (Pc _ _ L).
  - apply sub_walks_in in H. destruct H as ([k c] & Hin & W & H). cbn [fst snd] in *.
    pose proof (Pc _ _ Hin) as P. destruct c as [st'|lnk' deny' es']; [discriminate W|].
    apply plain_Dir in P. destruct P as (-> & limit' & L' & Pt). rewrite L' in H.
    cbn [is_link] in H. rewrite Forall_forall in IH.
    apply (IH _ Hin _ _ _ _ _ _ _ Pt H L).
Qed.

(** ** A readable tree is scanned to the end, and entirely *)

Lemma visit_returns vanish s root dirs files :
  (forall st, lookup "Data.db" files = Some st -> stat_ok vanish st = true) ->
  exists tr s', visit s (root, dirs, files) = (tr, inr s').
Proof.
  intros H. rewrite visit_cases.
  destruct (lookup "Data.db" files) as [[e|t]|]; eauto.
  specialize (H _ eq_refl). simpl in H. apply andb_true_iff in H.
  destruct H as [_ ->]. eauto.
Qed.

Lemma visit_candidate s root dirs files t :
  lookup "Data.db" files = Some (inr t) ->
  In (Getmtime (os_path_join root "Data.db") (inr t))
     (fst (visit s (root, dirs, files))).
Proof. intros L. rewrite visit_cases, L. left. reflexivity. Qed.

Lemma walk_items_return vanish stop limit top n :
  plain_table vanish limit n = true ->
  forall x s, In x (fst (walk stop limit top n)) ->
              exists tr s', visit s x = (tr, inr s').
Proof.
  intros P [[root dirs] files] s Hx. apply (visit_returns vanish).
  intros st L. apply (walk_stat_ok vanish stop n limit top root dirs files _ st P Hx L).
Qed.

Lemma walk_loop_returns vanish top n s :
  plain_table vanish (walk_limit h) n = true ->
  exists tr s', walk_loop h top n s = (tr, inr s')
    /\ tr = fst (for_each (fst (walk (recursion_error h) (walk_limit h) top n)) visit s).
Proof.
  intros P. unfold walk_loop.
  destruct (for_each_returns visit _
              (walk_items_return vanish (recursion_error h) _ top n P) s)
    as (tr & s' & E).
  rewrite E, (walk_finishes vanish _ n _ _ P). unfold bind, exhaust, ret.
  cbn [fst snd]. rewrite app_nil_r. eauto.
Qed.

Lemma table_loop_returns vanish keyspace_path s table_dir tb :
  plain_table vanish (walk_limit h) tb = true ->
  exists tr s', table_loop h keyspace_path s (table_dir, tb) = (tr, inr s').
Proof.
  intros P. rewrite table_loop_cases. cbv zeta. destruct (is_dir tb); [|eauto].
  destruct (walk_loop_returns vanish (os_path_join keyspace_path table_dir) tb s P)
    as (tr & s' & -> & _).
  cbn [fst snd]. eauto.
Qed.

Lemma table_loop_complete vanish keyspace_path s table_dir tb p t :
  plain_table vanish (walk_limit h) tb = true ->
  below (os_path_join keyspace_path table_dir) tb p t ->
  In (Getmtime p (inr t)) (fst (table_loop h keyspace_path s (table_dir, tb))).
Proof.
  intros P B. rewrite table_loop_cases. cbv zeta.
  destruct (walk_complete vanish (recursion_error h) _ _ _ _ B _ P)
    as (root & dirs & files & Hi & L & ->).
  destruct tb as [st|lnk deny es]; [inversion B|]. cbn [is_dir fst].
  right. right.
  destruct (walk_loop_returns vanish (os_path_join keyspace_path table_dir) _ s P)
    as (tr & s' & -> & ->). cbn [fst].
  destruct (for_each_covers visit _
              (walk_items_return vanish (recursion_error h) _
                 (os_path_join keyspace_path table_dir) _ P)
              _ s Hi) as (s0 & I).
  apply I, visit_candidate, L.
Qed.

Lemma plain_keyspace_Dir vanish limit keyspace lnk deny es :
  plain_keyspace vanish limit (keyspace, Dir lnk deny es) = true ->
  mem keyspace system_keyspaces = false ->
  deny = None /\ forall table_dir tb, In (table_dir, tb) es ->
                                      plain_table vanish limit tb = true.
Proof.
  unfold plain_keyspace. cbn [fst snd]. intros H G. rewrite G in H. cbn [orb] in H.
  apply andb_true_iff in H. destruct H as [D F].
  destruct deny; [discriminate|]. split; [reflexivity|].
  intros table_dir tb Hin. rewrite forallb_forall in F. apply (F (table_dir, tb) Hin).
Qed.

Lemma keyspace_loop_returns vanish s keyspace ks :
  plain_keyspace vanish (walk_limit h) (keyspace, ks) = true ->
  exists tr s', keyspace_loop h s (keyspace, ks) = (tr, inr s').
Proof.
  intros P. rewrite keyspace_loop_cases. cbv zeta.
  destruct (negb (is_dir ks) || mem keyspace system_keyspaces) eqn:G; [eauto|].
  apply orb_false_iff in G. destruct G as [_ G].
  destruct ks as [st|lnk deny es]; [eauto|].
  destruct (plain_keyspace_Dir _ _ _ _ _ _ P G) as (-> & Pt).
  assert (R : forall x s, In x es ->
            exists tr s',
              table_loop h (os_path_join base_cassandra_path keyspace) s x = (tr, inr s')).
  { intros [table_dir tb] s0 Hin. apply (table_loop_returns vanish), (Pt _ _ Hin). }
  destruct (for_each_returns _ es R s) as (tr & s' & ->). simpl. eauto.
Qed.

Lemma keyspace_loop_complete vanish s keyspace ks table_dir tb p t :
  plain_keyspace vanish (walk_limit h) (keyspace, ks) = true ->
  mem keyspace system_keyspaces = false ->
  In (table_dir, tb) (entries_of ks) ->
  below (os_path_join (os_path_join base_cassandra_path keyspace) table_dir) tb p t ->
  In (Getmtime p (inr t)) (fst (keyspace_loop h s (keyspace, ks))).
Proof.
  intros P G Hin B. rewrite keyspace_loop_cases. cbv zeta.
  destruct ks as [st|lnk deny es]; [contradiction|]. cbn [entries_of] in Hin.
  destruct (plain_keyspace_Dir _ _ _ _ _ _ P G) as (-> & Pt).
  cbn [is_dir negb orb]. rewrite G. cbn [fst]. right. right.
  assert (R : forall x s, In x es ->
            exists tr s',
              table_loop h (os_path_join base_cassandra_path keyspace) s x = (tr, inr s')).
  { intros [td n] s0 Hx. apply (table_loop_returns vanish), (Pt _ _ Hx). }
  destruct (for_each_covers _ es R _ s Hin) as (s' & I).
  apply I. apply (table_loop_complete vanish); [apply (Pt _ _ Hin)|exact B].
Qed.

Lemma plain_base_Dir vanish limit base :
  plain_base vanish limit base = true ->
  exists lnk es, base = Dir lnk None es
    /\ forall e, In e es -> plain_keyspace vanish limit e = true.
Proof.
  destruct base as [st|lnk deny es]; cbn [plain_base]; [discriminate|].
  intros H. apply andb_true_iff in H. destruct H as [D F].
  destruct deny; [discriminate|]. exists lnk, es. split; [reflexivity|].
  apply forallb_forall, F.
Qed.

Lemma scan_returns vanish base :
  plain_base vanish (walk_limit h) base = true -> exists tr s, scan h base = (tr, inr s).
Proof.
  intros P. destruct (plain_base_Dir _ _ _ P) as (lnk & es & -> & Pk).
  rewrite scan_cases.
  assert (R : forall x s, In x es -> exists tr s', keyspace_loop h s x = (tr, inr s')).
  { intros [keyspace ks] s Hx. apply (keyspace_loop_returns vanish), Pk, Hx. }
  destruct (for_each_returns _ es R initial) as (tr & s' & ->). simpl. eauto.
Qed.

Lemma scan_complete vanish base p t :
  plain_base vanish (walk_limit h) base = true -> target base p t ->
  In (Getmtime p (inr t)) (fst (scan h base)).
Proof.
  intros P (keyspace & ks & table_dir & tb & Hk & G & Ht & B).
  destruct (plain_base_Dir _ _ _ P) as (lnk & es & -> & Pk).
  cbn [entries_of] in Hk. rewrite scan_cases. cbn [fst]. right.
  assert (R : forall x s, In x es -> exists tr s', keyspace_loop h s x = (tr, inr s')).
  { intros [k n] s Hx. apply (keyspace_loop_returns vanish), Pk, Hx. }
  destruct (for_each_covers _ es R _ initial Hk) as (s' & I).
  apply I. apply (keyspace_loop_complete vanish) with (table_dir := table_dir) (tb := tb);
    auto.
Qed.

(** Whatever the tree, a modification time read by the scan is that of a
    target file. *)
Lemma scan_sound base p t :
  In (Getmtime p (inr t)) (fst (scan h base)) -> target base p t.
Proof.
  rewrite scan_cases. destruct base as [st|lnk [e|] es]; cbn [fst].
  - intros [H|[]]. discriminate H.
  - intros [H|[]]. discriminate H.
  - intros [H|H]; [discriminate H|].
    apply for_each_event in H. destruct H as ([keyspace ks] & s' & Hk & He).
    apply keyspace_loop_event in He. cbv zeta in He.
    destruct He as [He|(G & lnk' & deny & es' & -> & [He|(-> & table_dir & tb & s'' & Ht & He)])];
      try discriminate He.
    apply table_loop_event in He. cbv zeta in He.
    destruct He as [He|(_ & [He|[(e & He)|(root & dirs & files & st & Hi & L & He)]])];
      try discriminate He.
    inversion He; subst.
    exists keyspace, (Dir lnk' None es'), table_dir, tb. repeat split; auto.
    apply (walk_sound _ _ _ _ _ dirs files _ Hi); assumption.
Qed.

Lemma scan_readable vanish base :
  plain_base vanish (walk_limit h) base = true ->
  exists tr s, scan h base = (tr, inr s)
    /\ forall p t, In (p, t) (candidates tr) <-> target base p t.
Proof.
  intros P. destruct (scan_returns _ _ P) as (tr & s & S). exists tr, s.
  split; [exact S|]. intros p t. rewrite in_candidates.
  replace tr with (fst (scan h base)) by (rewrite S; reflexivity). split.
  - apply scan_sound.
  - apply (scan_complete vanish), P.
Qed.

(** ** Failures that end the scan *)

Lemma for_each_fatal {A S} (body : S -> A -> M S) ev e xs :
  (forall x s, In ev (fst (body s x)) -> snd (body s x) = inl e) ->
  forall s, In ev (fst (for_each xs body s)) -> snd (for_each xs body s) = inl e.
Proof.
  intros Hb. induction xs as [|x xs IH]; intros s H; [contradiction|].
  simpl in *. specialize (Hb x s).
  destruct (body s x) as [tr1 [e1|s1]]; simpl in *; [exact (Hb H)|].
  specialize (IH s1). destruct (for_each xs body s1) as [tr2 r]. simpl in *.
  apply in_app_or in H. destruct H as [H|H]; [discriminate (Hb H)|exact (IH H)].
Qed.

Lemma visit_fatal s item ev e :
  fatal ev = Some e -> In ev (fst (visit s item)) -> snd (visit s item) = inl e.
Proof.
  destruct item as [[root dirs] files]. intros F. rewrite visit_cases.
  destruct (lookup "Data.db" files) as [[e'|t]|]; simpl.
  - intros [<-|[]]. simpl in F. destruct (is_FileNotFoundError e'); congruence.
  - intros [<-|[]]. discriminate F.
  - intros [].
Qed.

Lemma walk_loop_fatal table_path n s ev e :
  fatal ev = Some e ->
  In ev (fst (walk_loop h table_path n s)) ->
  snd (walk_loop h table_path n s) = inl e.
Proof.
  intros F. unfold walk_loop.
  pose proof (for_each_fatal visit ev e
                (fst (walk (recursion_error h) (walk_limit h) table_path n))
                (fun x s0 => visit_fatal s0 x ev e F) s) as V.
  destruct (for_each _ visit s) as [tr1 [e1|s1]]; cbn [bind fst snd] in *;
    [exact V|].
  unfold exhaust.
  destruct (snd (walk (recursion_error h) (walk_limit h) table_path n)) as [e'|];
    cbn [ret fst snd]; intros H; apply in_app_or in H; destruct H as [H|H];
    try discriminate (V H).
  - destruct H as [<-|[]]. simpl in F. congruence.
  - destruct H.
Qed.

Lemma table_loop_fatal keyspace_path s x ev e :
  fatal ev = Some e ->
  In ev (fst (table_loop h keyspace_path s x)) ->
  snd (table_loop h keyspace_path s x) = inl e.
Proof.
  destruct x as [table_dir n]. intros F. rewrite table_loop_cases. cbv zeta.
  destruct (is_dir n); simpl.
  - intros [<-|[<-|H]]; try discriminate F.
    apply (walk_loop_fatal _ _ _ ev e F H).
  - intros [<-|[]]. discriminate F.
Qed.

Lemma keyspace_loop_fatal s x ev e :
  fatal ev = Some e ->
  In ev (fst (keyspace_loop h s x)) -> snd (keyspace_loop h s x) = inl e.
Proof.
  destruct x as [keyspace n]. intros F. rewrite keyspace_loop_cases. cbv zeta.
  destruct (negb (is_dir n) || mem keyspace system_keyspaces); simpl.
  - intros [<-|[]]. discriminate F.
  - destruct n as [st|lnk [e'|] es]; simpl.
    + intros [<-|[]]. discriminate F.
    + intros [<-|[<-|[]]]; [discriminate F|]. simpl in F. congruence.
    + intros [<-|[<-|H]]; try discriminate F.
      apply (for_each_fatal _ ev e); [|exact H].
      intros x s0. apply table_loop_fatal, F.
Qed.

(** Any such failure is the exception the [try] block ends with. *)
Lemma scan_fatal base ev e :
  fatal ev = Some e -> In ev (fst (scan h base)) -> snd (scan h base) = inl e.
Proof.
  intros F. rewrite scan_cases. destruct base as [st|lnk [e'|] es]; simpl.
  - intros [<-|[]]. simpl in F. congruence.
  - intros [<-|[]]. simpl in F. congruence.
  - intros [<-|H]; [discriminate F|].
    apply (for_each_fatal _ ev e); [|exact H].
    intros x s0. apply keyspace_loop_fatal, F.
Qed.

Lemma present_prints s : exists ls, fst (present h s) = map Print ls.
Proof.
  unfold present. destruct (truthy (oldest_file_path s)).
  - destruct (oldest_file_time s) as [z|]; unfold readable;
      [destruct (strftime h z)|]; unfold bind, ret, raise.
    + exists []. reflexivity.
    + rewrite print_all_run. eexists. reflexivity.
    + exists []. reflexivity.
  - rewrite print_all_run. eexists. reflexivity.
Qed.

(** The events of a run that gets past the first check: that check, the
    progress line, the events of the scan, and printed lines. *)
Lemma run_trace base :
  is_dir base = true ->
  exists ls,
    fst (run base) =
    Isdir base_cassandra_path true :: Print report_scanning
      :: fst (scan h base) ++ map Print ls.
Proof.
  intros D. destruct (scan h base) as [tr [e|s]] eqn:S.
  - rewrite (run_aborted base tr e D S). eexists. reflexivity.
  - rewrite (run_returned base tr s D S).
    destruct (present_prints s) as (ls & ->). exists ls. reflexivity.
Qed.

Lemma run_event_of_scan base ev :
  In ev (fst (run base)) ->
  match ev with
  | Getmtime _ _ | Listdir _ _ | Walk _ | WalkRaised _ _ => True
  | _ => False
  end ->
  is_dir base = true /\ In ev (fst (scan h base)).
Proof.
  intros H K. destruct (is_dir base) eqn:D.
  - split; [reflexivity|]. destruct (run_trace base D) as (ls & E). rewrite E in H.
    destruct H as [<-|[<-|H]]; try contradiction.
    apply in_app_or in H. destruct H as [H|H]; [exact H|].
    apply in_map_iff in H. destruct H as (l & <- & _). contradiction.
  - rewrite (run_missing base D) in H.
    destruct H as [<-|H]; [contradiction|].
    apply in_map_iff in H. destruct H as (l & <- & _). contradiction.
Qed.

Lemma run_aborted_stdout base tr e :
  is_dir base = true -> scan h base = (tr, inl e) ->
  stdout (run base) =
  report_scanning :: (if is_PermissionError e then report_permission e
                      else report_unexpected e).
Proof.
  intros D S. rewrite (run_aborted base tr e D S). unfold stdout.
  cbn [fst printed flat_map app].
  match goal with |- _ :: flat_map _ ?l = _ => fold (printed l) end.
  rewrite printed_app, printed_map_Print.
  replace tr with (fst (scan h base)) by (rewrite S; reflexivity).
  rewrite scan_prints_nothing. reflexivity.
Qed.

(** A fatal event anywhere in a run ends it with the report of its
    exception. *)
Lemma run_fatal base ev e :
  fatal ev = Some e -> In ev (fst (run base)) ->
  stdout (run base) =
  report_scanning :: (if is_PermissionError e then report_permission e
                      else report_unexpected e).
Proof.
  intros F H. apply run_event_of_scan in H.
  - destruct H as [D H]. pose proof (scan_fatal base ev e F H) as S.
    apply (run_aborted_stdout base (fst (scan h base))); [exact D|].
    rewrite <- S. apply surjective_pairing.
  - destruct ev as [| q [x|] | | q x | q [x|y] |]; try discriminate F; exact I.
Qed.

(** ** Trees the scan cannot tell apart *)

Lemma for_each_map_ext {A B S} (g : A -> B) (body : S -> B -> M S)
    (body' : S -> A -> M S) xs :
  (forall x s, In x xs -> body s (g x) = body' s x) ->
  forall s, for_each (map g xs) body s = for_each xs body' s.
Proof.
  induction xs as [|x xs IH]; intros H s; [reflexivity|].
  simpl. rewrite (H x s (or_introl eq_refl)).
  destruct (body' s x) as [tr [e|s1]]; simpl; [reflexivity|].
  rewrite IH; [reflexivity|]. intros y s0 Hy. apply H. right. exact Hy.
Qed.

Lemma run_ext base base' :
  is_dir base = is_dir base' -> scan h base = scan h base' ->
  find_oldest_sstable_globally h base
  = find_oldest_sstable_globally h base'.
Proof.
  intros D S. unfold find_oldest_sstable_globally, os_path_isdir.
  rewrite D, S. reflexivity.
Qed.

Lemma table_loop_ext keyspace_path s table_dir n n' :
  is_dir n = is_dir n' ->
  (forall stop limit top, walk stop limit top n = walk stop limit top n') ->
  table_loop h keyspace_path s (table_dir, n)
  = table_loop h keyspace_path s (table_dir, n').
Proof.
  intros D W. rewrite !table_loop_cases. cbv zeta. unfold walk_loop.
  rewrite D, W. reflexivity.
Qed.

Lemma keyspace_loop_map_entries (f : node -> node) s keyspace ks :
  (forall keyspace_path s table_dir tb,
     table_loop h keyspace_path s (table_dir, f tb)
     = table_loop h keyspace_path s (table_dir, tb)) ->
  keyspace_loop h s (keyspace, map_entries f ks) = keyspace_loop h s (keyspace, ks).
Proof.
  intros H. rewrite !keyspace_loop_cases. cbv zeta.
  destruct ks as [st|lnk [e|] es]; cbn [map_entries is_dir]; try reflexivity.
  rewrite (for_each_map_ext (fun e : entry => (fst e, f (snd e)))
             (table_loop h (os_path_join base_cassandra_path keyspace))
             (table_loop h (os_path_join base_cassandra_path keyspace)) es);
    [reflexivity|].
  intros [table_dir tb] s0 _. apply H.
Qed.

Lemma scan_map_entries (f : node -> node) base :
  (forall s keyspace ks,
     keyspace_loop h s (keyspace, f ks) = keyspace_loop h s (keyspace, ks)) ->
  scan h (map_entries f base) = scan h base.
Proof.
  intros H. rewrite !scan_cases.
  destruct base as [st|lnk [e|] es]; cbn [map_entries]; try reflexivity.
  rewrite (for_each_map_ext (fun e : entry => (fst e, f (snd e)))
             (keyspace_loop h) (keyspace_loop h) es); [reflexivity|].
  intros [keyspace ks] s0 _. apply H.
Qed.

Lemma is_dir_map_entries f n : is_dir (map_entries f n) = is_dir n.
Proof. destruct n; reflexivity. Qed.

(** ** Readable trees, denied tables, excluded keyspaces *)

Lemma static_targets vanish base p t :
  plain_base vanish (walk_limit h) base = true ->
  target base p t <-> In (p, t) (candidates (fst (scan h base))).
Proof.
  intros P. destruct (scan_readable _ _ P) as (tr & s & S & H).
  rewrite S. symmetry. apply H.
Qed.

(** A listing made by [os.walk] (a table directory and everything below it)
    that fails is passed over: the loop body returns with the running
    minimum as it was. *)
Lemma denied_table_skipped keyspace_path s table_dir lnk e es :
  table_loop h keyspace_path s (table_dir, Dir lnk (Some e) es) =
  ([Isdir (os_path_join keyspace_path table_dir) true;
    Walk (os_path_join keyspace_path table_dir)], inr s).
Proof. rewrite table_loop_cases. reflexivity. Qed.

Lemma keyspace_loop_excluded s e e' :
  same_outside_excluded e e' -> keyspace_loop h s e = keyspace_loop h s e'.
Proof.
  destruct e as [keyspace n], e' as [keyspace' n']. unfold same_outside_excluded.
  cbn [fst snd]. intros (<- & D & E). rewrite !keyspace_loop_cases. cbv zeta.
  rewrite <- D.
  destruct (mem keyspace system_keyspaces).
  - rewrite !orb_true_r. reflexivity.
  - rewrite (E eq_refl). reflexivity.
Qed.

(** What a run prints, case by case. *)
Lemma run_outcomes base :
  stdout (run base) = report_missing
  \/ (exists e, stdout (run base) = report_scanning :: report_permission e)
  \/ (exists e, stdout (run base) = report_scanning :: report_unexpected e)
  \/ stdout (run base) = report_scanning :: report_none
  \/ stdout (run base) = [report_scanning]
  \/ (exists root text,
        stdout (run base) =
        report_scanning :: report_found (os_path_join root "Data.db") text).
Proof.
  destruct (is_dir base) eqn:D.
  2:{ left. rewrite (run_missing base D). unfold stdout.
      cbn [fst printed flat_map app]. apply printed_map_Print. }
  destruct (scan h base) as [tr [e|s]] eqn:S.
  - pose proof (run_aborted_stdout base tr e D S) as R.
    destruct (is_PermissionError e); [right; left|right; right; left]; eauto.
  - destruct (candidates tr) as [|c cs] eqn:C.
    + right; right; right; left. apply (run_none_stdout base tr s S C).
    + right; right; right; right.
      destruct (first_least_exists (candidates tr)) as (p & t & FL);
        [rewrite C; discriminate|].
      destruct (scan_candidate_path base p t) as (root & ->).
      { rewrite S. apply first_least_in, FL. }
      destruct (strftime h t) as [e|text] eqn:R.
      * left. apply (run_unrendered_stdout base tr s _ t e S FL R).
      * right. exists root, text. apply (run_found_stdout base tr s _ t text S FL R).
Qed.

(** ** Links to directories *)

Lemma walk_as_real stop limit top n :
  walk stop limit top (as_real n) = walk stop limit top n.
Proof. destruct n as [st|lnk [e|] es]; reflexivity. Qed.

Lemma keyspace_loop_as_real s keyspace ks :
  keyspace_loop h s (keyspace, as_real ks) = keyspace_loop h s (keyspace, ks).
Proof.
  rewrite !keyspace_loop_cases. destruct ks as [st|lnk [e|] es]; reflexivity.
Qed.

Lemma is_dir_prune n : is_dir (prune n) = is_dir n.
Proof. destruct n as [st|[|] deny es]; reflexivity. Qed.

Lemma is_link_prune n : is_link (prune n) = is_link n.
Proof. destruct n as [st|[|] deny es]; reflexivity. Qed.

Lemma dirnames_prune es :
  dirnames (map (fun e : entry => (fst e, prune (snd e))) es) = dirnames es.
Proof.
  unfold dirnames. induction es as [|[name c] es IH]; [reflexivity|].
  cbn [map filter fst snd]. rewrite is_dir_prune.
  destruct (is_dir c); cbn [map fst]; rewrite IH; reflexivity.
Qed.

Lemma nondirs_prune es :
  nondirs (map (fun e : entry => (fst e, prune (snd e))) es) = nondirs es.
Proof.
  unfold nondirs. induction es as [|[name c] es IH]; [reflexivity|].
  cbn [map flat_map fst snd]. rewrite IH.
  destruct c as [st|[|] deny es']; reflexivity.
Qed.

Lemma sub_walks_map (g : entry -> entry) sub sub' es :
  (forall e, is_dir (snd (g e)) = is_dir (snd e)) ->
  (forall e, In e es -> is_dir (snd e) = true -> sub' (g e) = sub e) ->
  sub_walks sub' (map g es) = sub_walks sub es.
Proof.
  intros G. induction es as [|e es IH]; intros F; [reflexivity|].
  cbn [map sub_walks fold_right]. fold (sub_walks sub' (map g es)) (sub_walks sub es).
  rewrite IH by (intros e' Hin; apply F; right; exact Hin). rewrite G.
  destruct (is_dir (snd e)) eqn:W; [|reflexivity].
  rewrite F by (auto; left; reflexivity). reflexivity.
Qed.

(** [os.walk] does not see what lies behind a link to a directory. *)
Lemma walk_prune stop n :
  forall limit top,
    walk stop limit top (map_entries prune n) = walk stop limit top n.
Proof.
  induction n as [st|lnk deny es IH] using node_ind'; intros limit top;
    [reflexivity|].
  cbn [map_entries]. destruct deny as [e|]; [reflexivity|].
  rewrite !walk_Dir, dirnames_prune, nondirs_prune. cbv zeta.
  rewrite (sub_walks_map
             (fun e : entry => (fst e, prune (snd e)))
             (fun e : entry =>
                match lower limit with
                | None => ([], Some stop)
                | Some limit' =>
                    if is_link (snd e) then ([], None)
                    else walk stop limit' (os_path_join top (fst e)) (snd e)
                end)
             (fun e : entry =>
                match lower limit with
                | None => ([], Some stop)
                | Some limit' =>
                    if is_link (snd e) then ([], None)
                    else walk stop limit' (os_path_join top (fst e)) (snd e)
                end) es);
    [reflexivity| |].
  - intros e. apply is_dir_prune.
  - intros [name c] Hin W. cbn [fst snd] in *.
    destruct (lower limit) as [limit'|]; [|reflexivity].
    rewrite is_link_prune.
    destruct c as [st|[|] deny' es']; try reflexivity.
    rewrite Forall_forall in IH. apply (IH _ Hin).
Qed.

(** ** Where a computation of the [try] block raises *)

Lemma clean_cons {A} ev tr (r : exn + A) :
  nonfatal ev -> clean (tr, r) -> clean (ev :: tr, r).
Proof.
  unfold clean. cbn [fst snd]. intros N. destruct r as [e|a].
  - intros (tr' & ev' & -> & F & H). exists (ev :: tr'), ev'.
    repeat split; [exact F|]. constructor; assumption.
  - intros H. constructor; assumption.
Qed.

Lemma clean_bind {A B} (m : M A) (k : A -> M B) :
  clean m -> (forall a, clean (k a)) -> clean (bind m k).
Proof.
  destruct m as [tr1 [e|a]]; intros Hm Hk; [exact Hm|].
  unfold clean in Hm. cbn [fst snd] in Hm.
  specialize (Hk a). unfold bind. destruct (k a) as [tr2 r].
  unfold clean in *. cbn [fst snd] in *. destruct r as [e|b].
  - destruct Hk as (tr' & ev & -> & F & H). exists (tr1 ++ tr'), ev.
    rewrite app_assoc. repeat split; [exact F|]. apply Forall_app. auto.
  - apply Forall_app. auto.
Qed.

Lemma clean_for_each {A S} (body : S -> A -> M S) xs :
  (forall x s, clean (body s x)) -> forall s, clean (for_each xs body s).
Proof.
  intros Hb. induction xs as [|x xs IH]; intros s.
  - unfold clean. simpl. constructor.
  - simpl. apply clean_bind; [apply Hb|exact IH].
Qed.

Lemma clean_visit s item : clean (visit s item).
Proof.
  destruct item as [[root dirs] files]. rewrite visit_cases. unfold clean.
  destruct (lookup "Data.db" files) as [[e|t]|]; cbn [fst snd].
  - destruct (is_FileNotFoundError e) eqn:F.
    + repeat constructor. unfold nonfatal. simpl. rewrite F. reflexivity.
    + exists [], (Getmtime (os_path_join root "Data.db") (inl e)).
      repeat split; [simpl; rewrite F; reflexivity|constructor].
  - repeat constructor.
  - constructor.
Qed.

Lemma clean_walk_loop table_path n s : clean (walk_loop h table_path n s).
Proof.
  unfold walk_loop. apply clean_bind.
  - apply clean_for_each. intros x s0. apply clean_visit.
  - intros s'. unfold exhaust, clean.
    destruct (snd (walk (recursion_error h) (walk_limit h) table_path n)) as [e|];
      cbn [ret fst snd].
    + exists [], (WalkRaised table_path e). repeat split. constructor.
    + constructor.
Qed.

Lemma clean_table_loop keyspace_path s x : clean (table_loop h keyspace_path s x).
Proof.
  destruct x as [table_dir n]. rewrite table_loop_cases. cbv zeta.
  destruct (is_dir n).
  - apply clean_cons; [reflexivity|]. apply clean_cons; [reflexivity|].
    rewrite <- surjective_pairing. apply clean_walk_loop.
  - unfold clean. cbn [fst snd]. repeat constructor.
Qed.

Lemma clean_keyspace_loop s x : clean (keyspace_loop h s x).
Proof.
  destruct x as [keyspace n]. rewrite keyspace_loop_cases. cbv zeta.
  destruct (negb (is_dir n) || mem keyspace system_keyspaces).
  - unfold clean. cbn [fst snd]. repeat constructor.
  - destruct n as [st|lnk [e|] es].
    + unfold clean. cbn [fst snd]. repeat constructor.
    + unfold clean. cbn [fst snd].
      exists [Isdir (os_path_join base_cassandra_path keyspace) true],
             (Listdir (os_path_join base_cassandra_path keyspace) (Some e)).
      repeat split. repeat constructor.
    + apply clean_cons; [reflexivity|]. apply clean_cons; [reflexivity|].
      rewrite <- surjective_pairing. apply clean_for_each. intros x s0.
      apply clean_table_loop.
Qed.

Lemma clean_scan base : clean (scan h base).
Proof.
  rewrite scan_cases. destruct base as [st|lnk [e|] es].
  - unfold clean. cbn [fst snd]. exists [], (Listdir base_cassandra_path
                                             (Some (not_a_directory base_cassandra_path))).
    repeat split. constructor.
  - unfold clean. cbn [fst snd]. exists [], (Listdir base_cassandra_path (Some e)).
    repeat split. constructor.
  - apply clean_cons; [reflexivity|]. rewrite <- surjective_pairing.
    apply clean_for_each. intros x s0. apply clean_keyspace_loop.
Qed.

(** ** Entries that are skipped *)

Lemma snd_bind {A B} (m : M A) (k : A -> M B) :
  snd (bind m k) = match snd m with inl e => inl e | inr a => snd (k a) end.
Proof. destruct m as [tr [e|a]]; simpl; [reflexivity|]. destruct (k a); reflexivity. Qed.

Lemma for_each_snd_filter {A S} (keep : A -> bool) (body : S -> A -> M S) xs :
  (forall x s, keep x = false -> snd (body s x) = inr s) ->
  forall s, snd (for_each (filter keep xs) body s) = snd (for_each xs body s).
Proof.
  intros H. induction xs as [|x xs IH]; intros s; [reflexivity|].
  cbn [filter]. destruct (keep x) eqn:K.
  - cbn [for_each]. rewrite !snd_bind. destruct (snd (body s x)); [reflexivity|apply IH].
  - cbn [for_each]. rewrite snd_bind, (H x s K). apply IH.
Qed.

Lemma for_each_snd_map {A B S} (g : A -> B) (body : S -> B -> M S)
    (body' : S -> A -> M S) xs :
  (forall x s, snd (body s (g x)) = snd (body' s x)) ->
  forall s, snd (for_each (map g xs) body s) = snd (for_each xs body' s).
Proof.
  intros H. induction xs as [|x xs IH]; intros s; [reflexivity|].
  cbn [map for_each]. rewrite !snd_bind, H.
  destruct (snd (body' s x)); [reflexivity|apply IH].
Qed.

Lemma run_returned_stdout base tr s :
  scan h base = (tr, inr s) ->
  stdout (run base) =
  report_scanning :: printed (fst (present h s)).
Proof.
  intros S. rewrite (run_returned base tr s (scan_returned_dir _ _ _ S) S).
  unfold stdout. cbn [fst printed flat_map app].
  match goal with |- _ :: flat_map _ ?l = _ => fold (printed l) end.
  rewrite printed_app.
  replace tr with (fst (scan h base)) by (rewrite S; reflexivity).
  rewrite scan_prints_nothing. reflexivity.
Qed.

(** What is printed depends on the tree only through the first check and
    the way the [try] block ends. *)
Lemma stdout_ext base base' :
  is_dir base = is_dir base' -> snd (scan h base) = snd (scan h base') ->
  stdout (run base)
  = stdout (run base').
Proof.
  intros D S. destruct (is_dir base) eqn:Db; symmetry in D.
  - destruct (scan h base) as [tr r] eqn:Sb, (scan h base') as [tr' r'] eqn:Sb'.
    cbn [snd] in S. subst r'. destruct r as [e|s].
    + rewrite (run_aborted_stdout base tr e Db Sb).
      rewrite (run_aborted_stdout base' tr' e D Sb'). reflexivity.
    + rewrite (run_returned_stdout base tr s Sb).
      rewrite (run_returned_stdout base' tr' s Sb'). reflexivity.
  - rewrite (run_missing base Db), (run_missing base' D).
    reflexivity.
Qed.

Lemma table_loop_stray keyspace_path s table_dir n :
  is_dir n = false -> snd (table_loop h keyspace_path s (table_dir, n)) = inr s.
Proof. intros D. rewrite table_loop_cases. cbv zeta. rewrite D. reflexivity. Qed.

Lemma keyspace_loop_stray s keyspace n :
  is_dir n = false -> snd (keyspace_loop h s (keyspace, n)) = inr s.
Proof. intros D. rewrite keyspace_loop_cases. cbv zeta. rewrite D. reflexivity. Qed.

Lemma keyspace_loop_without_stray_files s keyspace ks :
  snd (keyspace_loop h s (keyspace, without_stray_files ks))
  = snd (keyspace_loop h s (keyspace, ks)).
Proof.
  rewrite !keyspace_loop_cases. cbv zeta.
  destruct ks as [st|lnk [e|] es]; cbn [without_stray_files is_dir]; try reflexivity.
  destruct (negb true || mem keyspace system_keyspaces); [reflexivity|].
  cbn [snd]. apply for_each_snd_filter. intros [table_dir tb] s0 D.
  apply table_loop_stray, D.
Qed.

(** ** Paths inside the base directory *)

Lemma starts_with_app p a b :
  starts_with p a = true -> starts_with p (a ++ b)%string = true.
Proof.
  revert a. induction p as [|c p IH]; intros a H; [reflexivity|].
  destruct a as [|d a]; [discriminate|]. simpl in *.
  apply andb_true_iff in H. destruct H as [-> H]. apply IH, H.
Qed.

Lemma join_inside a b :
  inside a = true -> starts_with_sep b = false -> inside (os_path_join a b) = true.
Proof.
  unfold inside, os_path_join. intros H ->.
  destruct ((a =? "")%string || ends_with_sep a); apply starts_with_app, H.
Qed.

Lemma join_base_inside name :
  starts_with_sep name = false ->
  inside (os_path_join base_cassandra_path name) = true.
Proof. unfold os_path_join. intros ->. reflexivity. Qed.

Lemma relative_names_Dir lnk deny es name c :
  relative_names (Dir lnk deny es) = true -> In (name, c) es ->
  starts_with_sep name = false /\ relative_names c = true.
Proof.
  cbn [relative_names]. intros H Hin. rewrite forallb_forall in H.
  specialize (H _ Hin). cbn [fst snd] in H. apply andb_true_iff in H.
  destruct H as [N R]. apply negb_true_iff in N. auto.
Qed.

Lemma walk_roots_inside stop n :
  forall limit top root dirs files,
    relative_names n = true -> inside top = true ->
    In (root, dirs, files) (fst (walk stop limit top n)) -> inside root = true.
Proof.
  induction n as [st|lnk deny es IH] using node_ind';
    intros limit top root dirs files R T H; [contradiction|].
  destruct deny as [e|]; [contradiction|].
  rewrite walk_Dir in H. cbv zeta in H. cbn [fst] in H.
  destruct H as [H|H]; [inversion H; subst; exact T|].
  apply sub_walks_in in H. destruct H as ([name c] & Hin & W & H). cbn [fst snd] in H.
  destruct (lower limit) as [limit'|]; [|contradiction].
  destruct (is_link c); [contradiction|].
  destruct (relative_names_Dir _ _ _ _ _ R Hin) as [N Rc].
  rewrite Forall_forall in IH.
  apply (IH _ Hin limit' (os_path_join top name) root dirs files Rc); [|exact H].
  apply join_inside; assumption.
Qed.

(** ** The same target files in another order *)

(** The least time a scan ends with is decided by the target files; so is
    the path it ends with when one target file only has that time. *)
Lemma scan_state_of_targets vanish base base' :
  plain_base vanish (walk_limit h) base = true ->
  plain_base vanish (walk_limit h) base' = true ->
  (forall q u, target base q u <-> target base' q u) ->
  exists s s',
    snd (scan h base) = inr s /\ snd (scan h base') = inr s'
    /\ oldest_file_time s = oldest_file_time s'
    /\ ((forall p q t,
           target base p t -> target base q t ->
           (forall r u, target base r u -> t <= u) -> p = q) ->
        s = s').
Proof.
  intros P P' Same.
  destruct (scan_readable _ _ P) as (tr & s & S & H).
  destruct (scan_readable _ _ P') as (tr' & s' & S' & H').
  exists s, s'. rewrite S, S'. split; [reflexivity|]. split; [reflexivity|].
  assert (D : candidates tr = [] \/ candidates tr <> [])
    by (destruct (candidates tr); [left; reflexivity|right; discriminate]).
  destruct D as [C|C].
  - assert (C' : candidates tr' = []).
    { destruct (candidates tr') as [|[q u] cs] eqn:E; [reflexivity|].
      assert (I : In (q, u) (candidates tr)).
      { apply H, Same, H'. left. reflexivity. }
      rewrite C in I. destruct I. }
    rewrite (scan_reduces _ _ _ S), (scan_reduces _ _ _ S'), C, C'. auto.
  - destruct (first_least_exists _ C) as (p & t & FL).
    assert (I : In (p, t) (candidates tr')).
    { apply H', Same, H, first_least_in, FL. }
    destruct (first_least_exists (candidates tr')) as (p' & t' & FL').
    { intros E. rewrite E in I. exact I. }
    assert (I' : In (p', t') (candidates tr)).
    { apply H, Same, H', first_least_in, FL'. }
    pose proof (first_least_le _ _ _ _ FL I') as Le. cbn [snd] in Le.
    pose proof (first_least_le _ _ _ _ FL' I) as Le'. cbn [snd] in Le'.
    assert (E : t' = t) by lia. subst t'.
    rewrite (scan_state_found _ _ _ _ _ S FL), (scan_state_found _ _ _ _ _ S' FL').
    split; [reflexivity|]. intros U.
    rewrite (U p p' t); [reflexivity| | |].
    + apply H, first_least_in, FL.
    + apply H, I'.
    + intros r u T. apply H in T. apply (first_least_le _ _ _ _ FL T).
Qed.

(** ** Directories that cannot be listed *)

Lemma bind_assoc {A B C} (m : M A) (k : A -> M B) (k' : B -> M C) :
  bind (bind m k) k' = bind m (fun a => bind (k a) k').
Proof.
  destruct m as [tr [e|a]]; simpl; [reflexivity|].
  destruct (k a) as [tr1 [e|b]]; simpl; [reflexivity|].
  destruct (k' b) as [tr2 r]. rewrite app_assoc. reflexivity.
Qed.

Lemma bind_ext {A B} (m : M A) (k k' : A -> M B) :
  (forall a, k a = k' a) -> bind m k = bind m k'.
Proof. intros H. destruct m as [tr [e|a]]; simpl; [reflexivity|]. rewrite H. reflexivity. Qed.

Lemma for_each_app {A S} (body : S -> A -> M S) xs ys :
  forall s, for_each (xs ++ ys) body s
            = bind (for_each xs body s) (for_each ys body).
Proof.
  induction xs as [|x xs IH]; intros s.
  - simpl. destruct (for_each ys body s). reflexivity.
  - cbn [app for_each]. rewrite bind_assoc. apply bind_ext. exact IH.
Qed.

Lemma for_each_flat_map {A B S} (f : A -> list B) (body : S -> B -> M S) xs :
  forall s, for_each (flat_map f xs) body s
            = for_each xs (fun s x => for_each (f x) body s) s.
Proof.
  induction xs as [|x xs IH]; intros s; [reflexivity|].
  cbn [flat_map for_each]. rewrite for_each_app. apply bind_ext. exact IH.
Qed.

Lemma is_dir_open_denied n : is_dir (open_denied n) = is_dir n.
Proof. destruct n as [st|lnk [e|] es]; reflexivity. Qed.

Lemma is_link_open_denied n : is_link (open_denied n) = is_link n.
Proof. destruct n as [st|lnk [e|] es]; reflexivity. Qed.

Lemma dirnames_open_denied es :
  dirnames (map (fun e : entry => (fst e, open_denied (snd e))) es) = dirnames es.
Proof.
  unfold dirnames. induction es as [|[name c] es IH]; [reflexivity|].
  cbn [map filter fst snd]. rewrite is_dir_open_denied.
  destruct (is_dir c); cbn [map fst]; rewrite IH; reflexivity.
Qed.

Lemma nondirs_open_denied es :
  nondirs (map (fun e : entry => (fst e, open_denied (snd e))) es) = nondirs es.
Proof.
  unfold nondirs. induction es as [|[name c] es IH]; [reflexivity|].
  cbn [map flat_map fst snd]. rewrite IH.
  destruct c as [st|lnk [e|] es']; reflexivity.
Qed.

Lemma same_visits_then_walk a a' b b' :
  same_visits a a' -> same_visits b b' ->
  same_visits (then_walk a b) (then_walk a' b').
Proof.
  intros [Ea Fa] [Eb Fb]. unfold then_walk. rewrite <- Ea.
  destruct (snd a) as [e|] eqn:A.
  - split; [congruence|exact Fa].
  - split; [exact Eb|]. intros s. cbn [fst]. rewrite !for_each_app, Fa.
    apply bind_ext, Fb.
Qed.

Lemma sub_walks_same_visits (g : entry -> entry) sub sub' es :
  (forall e, is_dir (snd (g e)) = is_dir (snd e)) ->
  (forall e, In e es -> is_dir (snd e) = true ->
             same_visits (sub' (g e)) (sub e)) ->
  same_visits (sub_walks sub' (map g es)) (sub_walks sub es).
Proof.
  intros G. induction es as [|e es IH]; intros F; [split; reflexivity|].
  cbn [map sub_walks fold_right]. fold (sub_walks sub' (map g es)) (sub_walks sub es).
  assert (R : same_visits (sub_walks sub' (map g es)) (sub_walks sub es))
    by (apply IH; intros e' Hin; apply F; right; exact Hin).
  rewrite G. destruct (is_dir (snd e)) eqn:W; [|exact R].
  apply same_visits_then_walk; [|exact R]. apply F; [left; reflexivity|exact W].
Qed.

(** The loop over [os.walk] does the same on a directory that cannot be
    listed as on an empty one, at any depth. *)
Lemma walk_open_denied stop n :
  forall limit top,
    same_visits (walk stop limit top (open_denied n)) (walk stop limit top n).
Proof.
  induction n as [st|lnk deny es IH] using node_ind'; intros limit top;
    [split; reflexivity|].
  destruct deny as [e|].
  - split; [reflexivity|]. intros s. cbn [open_denied walk sub_walks fold_right
      then_walk fst snd app for_each]. rewrite visit_cases. reflexivity.
  - cbn [open_denied]. rewrite !walk_Dir, dirnames_open_denied, nondirs_open_denied.
    cbv zeta.
    destruct (sub_walks_same_visits
                (fun e : entry => (fst e, open_denied (snd e)))
                (fun e : entry =>
                   match lower limit with
                   | None => ([], Some stop)
                   | Some limit' =>
                       if is_link (snd e) then ([], None)
                       else walk stop limit' (os_path_join top (fst e)) (snd e)
                   end)
                (fun e : entry =>
                   match lower limit with
                   | None => ([], Some stop)
                   | Some limit' =>
                       if is_link (snd e) then ([], None)
                       else walk stop limit' (os_path_join top (fst e)) (snd e)
                   end) es) as [E F].
    + intros e. apply is_dir_open_denied.
    + intros [name c] Hin W. cbn [fst snd].
      destruct (lower limit) as [limit'|]; [|split; reflexivity].
      rewrite is_link_open_denied. destruct (is_link c); [split; reflexivity|].
      rewrite Forall_forall in IH. apply (IH _ Hin).
    + split; [exact E|]. intros s. cbn [fst for_each]. apply bind_ext, F.
Qed.

Lemma walk_loop_open_denied top n s :
  walk_loop h top (open_denied n) s = walk_loop h top n s.
Proof.
  unfold walk_loop.
  destruct (walk_open_denied (recursion_error h) n (walk_limit h) top) as [E F].
  rewrite E, F. reflexivity.
Qed.

(** ** Directories that are entered *)

(** A loop that returns has made every one of its iterations, and each of
    them returned. *)
Lemma for_each_returned_covers {A S} (body : S -> A -> M S) xs :
  forall s tr s', for_each xs body s = (tr, inr s') ->
  forall x, In x xs ->
  exists s0 trx sx, body s0 x = (trx, inr sx) /\ incl trx tr.
Proof.
  induction xs as [|y xs IH]; intros s tr s' H x Hx; [contradiction|].
  cbn [for_each] in H. apply bind_inr in H.
  destruct H as (tr1 & s1 & tr2 & B & F & ->).
  destruct Hx as [->|Hx].
  - exists s, tr1, s1. split; [exact B|apply incl_appl, incl_refl].
  - destruct (IH _ _ _ F x Hx) as (s0 & trx & sx & Bx & I).
    exists s0, trx, sx. split; [exact Bx|apply incl_appr, I].
Qed.

Lemma bind_first {A B} (m : M A) (k : A -> M B) ev :
  In ev (fst m) -> In ev (fst (bind m k)).
Proof.
  destruct m as [tr [e|a]]; simpl; [auto|]. destruct (k a). simpl.
  intros H. apply in_or_app. left. exact H.
Qed.

(** The loop body of a table directory that can be listed, reached through
    a link or not, reads the modification time of the [Data.db] in it. *)
Lemma table_loop_enters keyspace_path s table_dir lnk es st :
  lookup "Data.db" (nondirs es) = Some st ->
  In (Getmtime (os_path_join (os_path_join keyspace_path table_dir) "Data.db") st)
     (fst (table_loop h keyspace_path s (table_dir, Dir lnk None es))).
Proof.
  intros L. rewrite table_loop_cases. cbv zeta. cbn [is_dir fst]. right. right.
  unfold walk_loop. rewrite walk_Dir. cbv zeta. cbn [fst snd for_each].
  apply bind_first, bind_first. rewrite visit_cases, L.
  destruct st as [e|t]; left; reflexivity.
Qed.

(** A scan that returns has entered every keyspace directory that is not
    excluded and every table directory in it, reached through links or
    not. *)
Lemma scan_enters base tr s keyspace lk tables table_dir lt es st :
  scan h base = (tr, inr s) ->
  In (keyspace, Dir lk None tables) (entries_of base) ->
  mem keyspace system_keyspaces = false ->
  In (table_dir, Dir lt None es) tables ->
  lookup "Data.db" (nondirs es) = Some st ->
  In (Getmtime
        (os_path_join
           (os_path_join (os_path_join base_cassandra_path keyspace) table_dir)
           "Data.db") st) tr.
Proof.
  intros S Hk G Ht L. rewrite scan_cases in S.
  destruct base as [st0|lnk [e|] ks]; try discriminate S. cbn [entries_of] in Hk.
  destruct (for_each ks (keyspace_loop h) initial) as [trK r] eqn:FK.
  cbn [fst snd] in S. inversion S; subst. right.
  destruct (for_each_returned_covers _ _ _ _ _ FK _ Hk) as (s0 & trx & sx & B & I).
  apply I. rewrite keyspace_loop_cases in B. cbv zeta in B.
  cbn [is_dir negb orb] in B. rewrite G in B.
  destruct (for_each tables (table_loop h (os_path_join base_cassandra_path keyspace)) s0)
    as [trT rT] eqn:FT.
  cbn [fst snd] in B. inversion B; subst. right. right.
  destruct (for_each_returned_covers _ _ _ _ _ FT _ Ht) as (s1 & trt & st1 & Bt & It).
  apply It. replace trt with (fst (table_loop h (os_path_join base_cassandra_path keyspace)
                                     s1 (table_dir, Dir lt None es)))
    by (rewrite Bt; reflexivity).
  apply table_loop_enters, L.
Qed.

(** An [os.walk] that is a loop raises nothing. *)
Lemma walk_unbounded stop n :
  forall top, snd (walk stop None top n) = None.
Proof.
  induction n as [st|lnk deny es IH] using node_ind'; intros top; [reflexivity|].
  destruct deny as [e|]; [reflexivity|].
  rewrite walk_Dir. cbv zeta. cbn [snd lower]. apply sub_walks_finished.
  intros [name c] Hin _. cbn [fst snd]. destruct (is_link c); [reflexivity|].
  rewrite Forall_forall in IH. apply (IH _ Hin).
Qed.

End Helpers.

(** * The claims *)

(** ** C1: the oldest target file is reported *)

(** C1. In a static tree (every directory can be listed and has distinct
    names, every modification time can be read, no directory below a table
    directory is a symbolic link, and no directory lies deeper than
    [os.walk] can descend on the host) whose target files are [(p1, t1)]
    and [rest], with times in strictly increasing order, the scan returns
    holding the path [p1] and the time [t1]; [t1] is at most the time of
    every candidate the run observed; and the run prints the path [p1] with
    the rendering of [t1], provided [t1] can be rendered. *)
Theorem C1_minimum_correctness (h : host) base p1 t1 rest :
  static_tree h base = true ->
  (forall p t, target base p t <-> In (p, t) ((p1, t1) :: rest)) ->
  StronglySorted (fun a b : string * mtime_t => snd a < snd b) ((p1, t1) :: rest) ->
  (exists tr, scan h base = (tr, inr (State (Some p1) (Fin t1))))
  /\ (forall p t,
        In (p, t) (candidates (fst (find_oldest_sstable_globally h base))) ->
        t1 <= t)
  /\ (forall text,
        strftime h t1 = inr text ->
        stdout (find_oldest_sstable_globally h base)
        = report_scanning :: report_found p1 text).
Proof.
  intros P T Sorted.
  destruct (scan_readable h _ _ P) as (tr & s & S & H).
  assert (L : forall p t, In (p, t) (candidates tr) -> t1 <= t).
  { intros p t Hc. apply H, T in Hc. destruct Hc as [E|Hc].
    - inversion E. lia.
    - apply StronglySorted_inv in Sorted. destruct Sorted as [_ F].
      rewrite Forall_forall in F. specialize (F _ Hc). simpl in F. lia. }
  assert (FL : first_least p1 t1 (candidates tr)).
  { destruct (first_least_exists (candidates tr)) as (p & t & FL).
    - intros E. assert (I : In (p1, t1) (candidates tr)) by (apply H, T; left; reflexivity).
      rewrite E in I. exact I.
    - pose proof (first_least_in _ _ _ FL) as I. apply H, T in I.
      destruct I as [E|I]; [inversion E; subst; exact FL|].
      apply StronglySorted_inv in Sorted. destruct Sorted as [_ F].
      rewrite Forall_forall in F. specialize (F _ I). simpl in F.
      assert (I1 : In (p1, t1) (candidates tr)) by (apply H, T; left; reflexivity).
      pose proof (first_least_le _ _ _ _ FL I1) as Le. simpl in Le. lia. }
  split; [|split].
  - exists tr. rewrite S. rewrite (scan_state_found h _ _ _ _ _ S FL). reflexivity.
  - rewrite (run_candidates h base tr s S). exact L.
  - intros text R. apply (run_found_stdout h base tr s p1 t1 text S FL R).
Qed.

Lemma C1_minimum_correctness_witness :
  (exists tr,
     scan host_311 sample_tree
     = (tr, inr (State (Some "/mnt/cassandra/shop/orders-a1/snapshots/s1/Data.db")
                       (Fin 100))))
  /\ (forall p t,
        In (p, t) (candidates (fst (find_oldest_sstable_globally host_311
                                      sample_tree))) ->
        100 <= t)
  /\ stdout (find_oldest_sstable_globally host_311 sample_tree)
     = report_scanning
         :: report_found "/mnt/cassandra/shop/orders-a1/snapshots/s1/Data.db" "100".
Proof.
  destruct (C1_minimum_correctness host_311 sample_tree
              "/mnt/cassandra/shop/orders-a1/snapshots/s1/Data.db" 100
              [("/mnt/cassandra/shop/users-b2/Data.db", 200);
               ("/mnt/cassandra/shop/orders-a1/Data.db", 300)])
    as (Held & Least & Printed).
  - vm_compute. reflexivity.
  - intros p t. rewrite (static_targets host_311 false) by (vm_compute; reflexivity).
    vm_compute. tauto.
  - repeat constructor; simpl; lia.
  - split; [exact Held|]. split; [exact Least|]. apply Printed. reflexivity.
Defined.

(** A static tree whose files carry times in the year 10000: the scan holds
    the older one, the rendering of its time raises outside the [try]
    block, and the run ends there, with the progress line printed and no
    result. *)
Example far_future_run :
  find_oldest_sstable_globally host_311 far_future_tree =
  ([Isdir "/mnt/cassandra" true;
    Print report_scanning;
    Listdir "/mnt/cassandra" None;
    Isdir "/mnt/cassandra/shop" true;
    Listdir "/mnt/cassandra/shop" None;
    Isdir "/mnt/cassandra/shop/orders-a1" true;
    Walk "/mnt/cassandra/shop/orders-a1";
    Getmtime "/mnt/cassandra/shop/orders-a1/Data.db" (inr 253402300800);
    Isdir "/mnt/cassandra/shop/users-b2" true;
    Walk "/mnt/cassandra/shop/users-b2";
    Getmtime "/mnt/cassandra/shop/users-b2/Data.db" (inr 253402300900)],
   inl (Exn OtherError "year 10000 is out of range")).
Proof. vm_compute. reflexivity. Qed.

(** ** C2: a listing that is denied *)

(** A listing made by [os.listdir] (the base directory, a keyspace
    directory) that fails ends the run with the report of its exception. *)
Lemma listdir_failure_aborts (h : host) base path e :
  In (Listdir path (Some e)) (fst (find_oldest_sstable_globally h base)) ->
  stdout (find_oldest_sstable_globally h base) =
  report_scanning :: (if is_PermissionError e then report_permission e
                      else report_unexpected e).
Proof. apply run_fatal. reflexivity. Qed.

Example denied_keyspace_aborts :
  stdout (find_oldest_sstable_globally host_311 denied_keyspace_tree)
  = report_scanning :: report_permission (eacces "/mnt/cassandra/shop").
Proof. vm_compute. reflexivity. Qed.

(** C2. On [denied_table_tree] the listing of the table directory
    [orders-a1] is denied, yet the run does not end with the permission
    report: it presents the [Data.db] of the other table as the oldest. *)
Theorem C2_denied_table_listing_not_reported :
  find_oldest_sstable_globally host_311 denied_table_tree =
  ([Isdir "/mnt/cassandra" true;
    Print report_scanning;
    Listdir "/mnt/cassandra" None;
    Isdir "/mnt/cassandra/shop" true;
    Listdir "/mnt/cassandra/shop" None;
    Isdir "/mnt/cassandra/shop/orders-a1" true;
    Walk "/mnt/cassandra/shop/orders-a1";
    Isdir "/mnt/cassandra/shop/users-b2" true;
    Walk "/mnt/cassandra/shop/users-b2";
    Getmtime "/mnt/cassandra/shop/users-b2/Data.db" (inr 200);
    Print "--- Oldest SSTable Found Across All Keyspaces ---";
    Print "Path: /mnt/cassandra/shop/users-b2/Data.db";
    Print "Modification Time: 200"],
   inr tt).
Proof. vm_compute. reflexivity. Qed.

(** The same at depth: the directory [snapshots] cannot be listed and the
    older [Data.db] it holds is missed without a word. *)
Example denied_subdirectory_skipped :
  stdout (find_oldest_sstable_globally host_311 denied_subdirectory_tree)
  = report_scanning :: report_found "/mnt/cassandra/shop/orders-a1/Data.db" "300".
Proof. vm_compute. reflexivity. Qed.

(** ** C3: a modification time that cannot be read *)

(** C3, as stated, fails: a [PermissionError] on one file ends the scan, and
    the readable [Data.db] of the next table is never looked at. *)
Lemma C3_any_stat_error_skipped_counterexample :
  find_oldest_sstable_globally host_311 unreadable_file_tree =
  ([Isdir "/mnt/cassandra" true;
    Print report_scanning;
    Listdir "/mnt/cassandra" None;
    Isdir "/mnt/cassandra/shop" true;
    Listdir "/mnt/cassandra/shop" None;
    Isdir "/mnt/cassandra/shop/orders-a1" true;
    Walk "/mnt/cassandra/shop/orders-a1";
    Getmtime "/mnt/cassandra/shop/orders-a1/Data.db"
      (inl (eacces "/mnt/cassandra/shop/orders-a1/Data.db"));
    Print "Permission denied: Could not scan directory. Please run with appropriate permissions.";
    Print "Details: [Errno 13] Permission denied: '/mnt/cassandra/shop/orders-a1/Data.db'"],
   inr tt)
  /\ snd (visit initial
            ("/mnt/cassandra/shop/orders-a1", [],
             [("Data.db", inl (eacces "/mnt/cassandra/shop/orders-a1/Data.db"))]))
     <> inr initial.
Proof. split; [vm_compute; reflexivity|discriminate]. Qed.

(** C3, amended. A read of a modification time that fails with
    [FileNotFoundError] is passed over: the loop body returns with the
    running minimum as it was.  A read that fails with any other exception
    raises it out of the loop body, and a run in which that happens ends
    with the permission report when the exception is a [PermissionError]
    and with the report of an unexpected error otherwise. *)
Theorem C3_only_vanished_files_skipped (h : host) :
  (forall s root dirs files e,
     lookup "Data.db" files = Some (inl e) ->
     visit s (root, dirs, files) =
     ([Getmtime (os_path_join root "Data.db") (inl e)],
      if is_FileNotFoundError e then inr s else inl e))
  /\ (forall base path e,
        In (Getmtime path (inl e))
           (fst (find_oldest_sstable_globally h base)) ->
        is_FileNotFoundError e = false ->
        stdout (find_oldest_sstable_globally h base) =
        report_scanning :: (if is_PermissionError e then report_permission e
                            else report_unexpected e)).
Proof.
  split.
  - intros s root dirs files e L. rewrite visit_cases, L. reflexivity.
  - intros base path e H N. apply (run_fatal h base _ e) in H; [exact H|].
    simpl. rewrite N. reflexivity.
Qed.

Lemma C3_only_vanished_files_skipped_witness :
  visit (State (Some "/mnt/cassandra/shop/users-b2/Data.db") (Fin 200))
        ("/mnt/cassandra/shop/orders-a1", [],
         [("Data.db", inl (enoent "/mnt/cassandra/shop/orders-a1/Data.db"))])
  = ([Getmtime "/mnt/cassandra/shop/orders-a1/Data.db"
        (inl (enoent "/mnt/cassandra/shop/orders-a1/Data.db"))],
     inr (State (Some "/mnt/cassandra/shop/users-b2/Data.db") (Fin 200)))
  /\ stdout (find_oldest_sstable_globally host_311 unreadable_file_tree)
     = report_scanning
         :: report_permission (eacces "/mnt/cassandra/shop/orders-a1/Data.db").
Proof.
  split.
  - apply (proj1 (C3_only_vanished_files_skipped host_311)). reflexivity.
  - apply (proj2 (C3_only_vanished_files_skipped host_311) unreadable_file_tree
             "/mnt/cassandra/shop/orders-a1/Data.db"
             (eacces "/mnt/cassandra/shop/orders-a1/Data.db")).
    + vm_compute. tauto.
    + reflexivity.
Defined.

(** ** C4: excluded keyspaces *)

(** C4. What lies in or below a directory of the base directory named as a
    system keyspace has no influence on the run: two trees that differ
    only there give the same events and the same output.  And every
    candidate the run observes is a target file, that is, lies below a
    keyspace that is not excluded. *)
Theorem C4_excluded_keyspaces (h : host) lnk deny es es' :
  Forall2 same_outside_excluded es es' ->
  find_oldest_sstable_globally h (Dir lnk deny es)
  = find_oldest_sstable_globally h (Dir lnk deny es')
  /\ forall p t,
       In (Getmtime p (inr t))
          (fst (find_oldest_sstable_globally h (Dir lnk deny es))) ->
       target (Dir lnk deny es) p t.
Proof.
  intros H. split.
  - apply run_ext; [reflexivity|]. rewrite !scan_cases.
    destruct deny as [e|]; [reflexivity|].
    rewrite (for_each_ext same_outside_excluded (keyspace_loop h) (keyspace_loop h) es es' H);
      [reflexivity|].
    intros x y s R. apply keyspace_loop_excluded, R.
  - intros p t G. apply run_event_of_scan in G; [|exact I].
    apply (scan_sound h), G.
Qed.

Lemma C4_excluded_keyspaces_witness :
  find_oldest_sstable_globally host_311 sample_tree
  = find_oldest_sstable_globally host_311 sample_tree_other_system
  /\ forall p t,
       In (Getmtime p (inr t))
          (fst (find_oldest_sstable_globally host_311 sample_tree)) ->
       target sample_tree p t.
Proof.
  apply (C4_excluded_keyspaces host_311).
  repeat constructor; simpl; discriminate.
Defined.

(** The [Data.db] of the system keyspace is the oldest file of
    [sample_tree], and is not the one presented. *)
Example sample_run :
  find_oldest_sstable_globally host_311 sample_tree =
  ([Isdir "/mnt/cassandra" true;
    Print report_scanning;
    Listdir "/mnt/cassandra" None;
    Isdir "/mnt/cassandra/system" true;
    Isdir "/mnt/cassandra/notes.txt" false;
    Isdir "/mnt/cassandra/shop" true;
    Listdir "/mnt/cassandra/shop" None;
    Isdir "/mnt/cassandra/shop/orders-a1" true;
    Walk "/mnt/cassandra/shop/orders-a1";
    Getmtime "/mnt/cassandra/shop/orders-a1/Data.db" (inr 300);
    Getmtime "/mnt/cassandra/shop/orders-a1/snapshots/s1/Data.db" (inr 100);
    Isdir "/mnt/cassandra/shop/users-b2" true;
    Walk "/mnt/cassandra/shop/users-b2";
    Getmtime "/mnt/cassandra/shop/users-b2/Data.db" (inr 200);
    Isdir "/mnt/cassandra/shop/Data.db" false;
    Print "--- Oldest SSTable Found Across All Keyspaces ---";
    Print "Path: /mnt/cassandra/shop/orders-a1/snapshots/s1/Data.db";
    Print "Modification Time: 100"],
   inr tt).
Proof. vm_compute. reflexivity. Qed.

(** ** C5: ties *)

(** C5. The loop body replaces the running minimum exactly when the new
    time is strictly less than the one held; from the initial state the
    first candidate always replaces it.  Hence a scan that returns holds
    the candidate that comes first, in the order of the traversal, among
    those with the least time, and the run presents that one, provided its
    time can be rendered. *)
Theorem C5_strict_update_first_seen_wins (h : host) :
  (forall held_path held_time root dirs files t,
     lookup "Data.db" files = Some (inr t) ->
     snd (visit (State held_path (Fin held_time)) (root, dirs, files)) =
     inr (if t <? held_time
          then State (Some (os_path_join root "Data.db")) (Fin t)
          else State held_path (Fin held_time)))
  /\ (forall root dirs files t,
        lookup "Data.db" files = Some (inr t) ->
        snd (visit initial (root, dirs, files)) =
        inr (State (Some (os_path_join root "Data.db")) (Fin t)))
  /\ (forall base tr s before p t after,
        scan h base = (tr, inr s) ->
        candidates tr = before ++ (p, t) :: after ->
        (forall c, In c before -> t < snd c) ->
        (forall c, In c after -> t <= snd c) ->
        s = State (Some p) (Fin t)
        /\ forall text,
             strftime h t = inr text ->
             stdout (find_oldest_sstable_globally h base) =
             report_scanning :: report_found p text).
Proof.
  split; [|split].
  - intros hp ht root dirs files t L. rewrite visit_cases, L. reflexivity.
  - intros root dirs files t L. rewrite visit_cases, L. reflexivity.
  - intros base tr s before p t after S C Hb Ha.
    assert (FL : first_least p t (candidates tr)) by (exists before, after; auto).
    split.
    + apply (scan_state_found h base tr s p t S FL).
    + intros text R. apply (run_found_stdout h base tr s p t text S FL R).
Qed.

Lemma C5_strict_update_first_seen_wins_witness :
  snd (visit (State (Some "/mnt/cassandra/shop/orders-a1/Data.db") (Fin 100))
         ("/mnt/cassandra/shop/users-b2", [], [("Data.db", inr 100)]))
  = inr (State (Some "/mnt/cassandra/shop/orders-a1/Data.db") (Fin 100))
  /\ snd (visit initial
            ("/mnt/cassandra/shop/returns-d4", [], [("Data.db", inr 150)]))
     = inr (State (Some "/mnt/cassandra/shop/returns-d4/Data.db") (Fin 150))
  /\ snd (scan host_311 tie_tree)
     = inr (State (Some "/mnt/cassandra/shop/orders-a1/Data.db") (Fin 100))
  /\ stdout (find_oldest_sstable_globally host_311 tie_tree)
     = report_scanning
         :: report_found "/mnt/cassandra/shop/orders-a1/Data.db" "100".
Proof.
  destruct (C5_strict_update_first_seen_wins host_311) as (Strict & First & Tie).
  split; [|split].
  - apply (Strict (Some "/mnt/cassandra/shop/orders-a1/Data.db") 100
             "/mnt/cassandra/shop/users-b2" [] [("Data.db", inr 100)] 100).
    reflexivity.
  - apply (First "/mnt/cassandra/shop/returns-d4" [] [("Data.db", inr 150)] 150).
    reflexivity.
  - destruct (Tie tie_tree (fst (scan host_311 tie_tree))
                (State (Some "/mnt/cassandra/shop/orders-a1/Data.db") (Fin 100))
                [("/mnt/cassandra/shop/returns-d4/Data.db", 150)]
                "/mnt/cassandra/shop/orders-a1/Data.db" 100
                [("/mnt/cassandra/shop/users-b2/Data.db", 100)])
      as [Held Printed].
    + vm_compute. reflexivity.
    + vm_compute. reflexivity.
    + intros c [<-|[]]. simpl. lia.
    + intros c [<-|[]]. simpl. lia.
    + split; [vm_compute; reflexivity|]. apply Printed. reflexivity.
Defined.

(** The same files with the two tables of the tie listed the other way
    round: the other one is presented. *)
Example swapped_tie_run :
  stdout (find_oldest_sstable_globally host_311 swapped_tie_tree)
  = report_scanning :: report_found "/mnt/cassandra/shop/users-b2/Data.db" "100".
Proof. vm_compute. reflexivity. Qed.

(** ** C6: the base directory is missing *)

(** C6. When [/mnt/cassandra] does not name a directory (it names nothing,
    or something that is not a directory), the run consists of the check of
    the base directory and the two lines of the error message, which names
    the path; nothing is listed, walked or read, and no result is
    printed. *)
Theorem C6_missing_root (h : host) base :
  is_dir base = false ->
  find_oldest_sstable_globally h base =
  ([Isdir "/mnt/cassandra" false;
    Print "Error: Cassandra data directory not found at '/mnt/cassandra'";
    Print "Please ensure you are running this script on the correct server."],
   inr tt).
Proof. intros H. rewrite (run_missing h base H). reflexivity. Qed.

Lemma C6_missing_root_witness :
  find_oldest_sstable_globally host_311 (File (inl (enoent "/mnt/cassandra"))) =
  ([Isdir "/mnt/cassandra" false;
    Print "Error: Cassandra data directory not found at '/mnt/cassandra'";
    Print "Please ensure you are running this script on the correct server."],
   inr tt)
  /\ find_oldest_sstable_globally host_311 (File (inr 7)) =
     ([Isdir "/mnt/cassandra" false;
       Print "Error: Cassandra data directory not found at '/mnt/cassandra'";
       Print "Please ensure you are running this script on the correct server."],
      inr tt).
Proof.
  split.
  - apply (C6_missing_root host_311 (File (inl (enoent "/mnt/cassandra")))).
    reflexivity.
  - apply (C6_missing_root host_311 (File (inr 7))). reflexivity.
Defined.

(** ** C7: a file that vanished *)

(** C7. In a raced tree (a static tree, except that reading the
    modification time of some files fails with [FileNotFoundError]) the
    scan returns.  When a target file still has a modification time, the
    scan holds one that is at least as old as every other such file, and
    the run presents it and returns, provided its time can be rendered;
    when there is none, the run says that none was found and returns.  The
    loop body that meets a vanished file returns the running minimum it was
    given. *)
Theorem C7_race_tolerance (h : host) base :
  raced_tree h base = true ->
  (exists tr s,
     scan h base = (tr, inr s)
     /\ ((exists p t,
            s = State (Some p) (Fin t)
            /\ target base p t
            /\ (forall p' t', target base p' t' -> t <= t')
            /\ forall text,
                 strftime h t = inr text ->
                 snd (find_oldest_sstable_globally h base) = inr tt
                 /\ stdout (find_oldest_sstable_globally h base) =
                    report_scanning :: report_found p text)
         \/ (s = initial
             /\ (forall p t, ~ target base p t)
             /\ snd (find_oldest_sstable_globally h base) = inr tt
             /\ stdout (find_oldest_sstable_globally h base) =
                report_scanning :: report_none)))
  /\ (forall s root dirs files e,
        lookup "Data.db" files = Some (inl e) ->
        is_FileNotFoundError e = true ->
        visit s (root, dirs, files) =
        ([Getmtime (os_path_join root "Data.db") (inl e)], inr s)).
Proof.
  intros P. destruct (scan_readable h _ _ P) as (tr & s & S & H).
  split.
  2:{ intros s0 root dirs files e L F. rewrite visit_cases, L, F. reflexivity. }
  exists tr, s. split; [exact S|].
  assert (D : candidates tr = [] \/ candidates tr <> [])
    by (destruct (candidates tr); [left; reflexivity|right; discriminate]).
  destruct D as [C|C].
  - right. split; [|split; [|split]].
    + rewrite (scan_reduces h _ _ _ S), C. reflexivity.
    + intros p t T. apply H in T. rewrite C in T. exact T.
    + rewrite (run_none h base tr s S C). reflexivity.
    + apply (run_none_stdout h base tr s S C).
  - left. destruct (first_least_exists _ C) as (p & t & FL). exists p, t.
    split; [apply (scan_state_found h base tr s p t S FL)|].
    split; [apply H, first_least_in, FL|]. split.
    + intros p' t' T. apply H in T. apply (first_least_le _ _ _ _ FL T).
    + intros text R. split.
      * rewrite (run_found h base tr s p t text S FL R). reflexivity.
      * apply (run_found_stdout h base tr s p t text S FL R).
Qed.

Lemma C7_race_tolerance_witness :
  raced_tree host_311 vanished_file_tree = true
  /\ snd (scan host_311 vanished_file_tree)
     = inr (State (Some "/mnt/cassandra/shop/users-b2/Data.db") (Fin 200))
  /\ (exists tr s,
        scan host_311 vanished_file_tree = (tr, inr s)
        /\ ((exists p t,
               s = State (Some p) (Fin t)
               /\ target vanished_file_tree p t
               /\ (forall p' t', target vanished_file_tree p' t' -> t <= t')
               /\ forall text,
                    strftime host_311 t = inr text ->
                    snd (find_oldest_sstable_globally host_311 vanished_file_tree)
                    = inr tt
                    /\ stdout (find_oldest_sstable_globally host_311
                                 vanished_file_tree) =
                       report_scanning :: report_found p text)
            \/ (s = initial
                /\ (forall p t, ~ target vanished_file_tree p t)
                /\ snd (find_oldest_sstable_globally host_311 vanished_file_tree)
                   = inr tt
                /\ stdout (find_oldest_sstable_globally host_311 vanished_file_tree) =
                   report_scanning :: report_none)))
  /\ (forall s root dirs files e,
        lookup "Data.db" files = Some (inl e) ->
        is_FileNotFoundError e = true ->
        visit s (root, dirs, files) =
        ([Getmtime (os_path_join root "Data.db") (inl e)], inr s)).
Proof.
  split; [reflexivity|]. split; [vm_compute; reflexivity|].
  apply (C7_race_tolerance host_311 vanished_file_tree). reflexivity.
Defined.

(** The run on the tree with the vanished file, event by event. *)
Example vanished_file_run :
  find_oldest_sstable_globally host_311 vanished_file_tree =
  ([Isdir "/mnt/cassandra" true;
    Print report_scanning;
    Listdir "/mnt/cassandra" None;
    Isdir "/mnt/cassandra/shop" true;
    Listdir "/mnt/cassandra/shop" None;
    Isdir "/mnt/cassandra/shop/orders-a1" true;
    Walk "/mnt/cassandra/shop/orders-a1";
    Getmtime "/mnt/cassandra/shop/orders-a1/Data.db"
      (inl (enoent "/mnt/cassandra/shop/orders-a1/Data.db"));
    Isdir "/mnt/cassandra/shop/users-b2" true;
    Walk "/mnt/cassandra/shop/users-b2";
    Getmtime "/mnt/cassandra/shop/users-b2/Data.db" (inr 200);
    Print "--- Oldest SSTable Found Across All Keyspaces ---";
    Print "Path: /mnt/cassandra/shop/users-b2/Data.db";
    Print "Modification Time: 200"],
   inr tt).
Proof. vm_compute. reflexivity. Qed.

(** ** C8: only files named [Data.db] *)

(** C8. Whenever the run presents a result, the base name of the path it
    prints is [Data.db]; and the modification time of a path with another
    base name is never even read. *)
Theorem C8_filename_filter (h : host) base :
  (forall p readable_time,
     stdout (find_oldest_sstable_globally h base) =
     report_scanning :: report_found p readable_time ->
     os_path_basename p = "Data.db")
  /\ (forall p st,
        In (Getmtime p st) (fst (find_oldest_sstable_globally h base)) ->
        os_path_basename p = "Data.db").
Proof.
  split.
  - intros p rt H.
    destruct (run_outcomes h base)
      as [E|[(e & E)|[(e & E)|[E|[E|(root & text & E)]]]]]; rewrite E in H;
      try discriminate H.
    unfold report_found in H. injection H as J _. rewrite <- J.
    apply basename_join_Data_db.
  - intros p st H. apply run_event_of_scan in H; [|exact I]. destruct H as [_ H].
    apply scan_events in H. destruct H as (root & ->).
    apply basename_join_Data_db.
Qed.

Lemma C8_filename_filter_witness :
  stdout (find_oldest_sstable_globally host_311 sample_tree) =
  report_scanning
    :: report_found "/mnt/cassandra/shop/orders-a1/snapshots/s1/Data.db" "100"
  /\ os_path_basename "/mnt/cassandra/shop/orders-a1/snapshots/s1/Data.db" = "Data.db"
  /\ os_path_basename "/mnt/cassandra/shop/users-b2/Data.db" = "Data.db".
Proof.
  destruct (C8_filename_filter host_311 sample_tree) as [Reported Read].
  split; [vm_compute; reflexivity|]. split.
  - apply (Reported _ "100"). vm_compute. reflexivity.
  - apply (Read _ (inr 200)). vm_compute. tauto.
Defined.

(** ** C9: nothing found *)

(** C9. When the scan returns (no exception left the [try] block) and
    observed no candidate, the run ends, after the events of the scan, with
    the single line that says no [Data.db] was found under [/mnt/cassandra],
    and returns normally; besides the progress line nothing else is
    printed. *)
Theorem C9_none_found (h : host) base tr s :
  scan h base = (tr, inr s) ->
  candidates tr = [] ->
  find_oldest_sstable_globally h base =
  (Isdir "/mnt/cassandra" true :: Print report_scanning :: tr
     ++ [Print "No 'Data.db' files were found under '/mnt/cassandra' (excluding system keyspaces)."],
   inr tt)
  /\ stdout (find_oldest_sstable_globally h base) =
     [report_scanning;
      "No 'Data.db' files were found under '/mnt/cassandra' (excluding system keyspaces)."].
Proof.
  intros S C. split.
  - apply (run_none h base tr s S C).
  - apply (run_none_stdout h base tr s S C).
Qed.

Lemma C9_none_found_witness :
  (find_oldest_sstable_globally host_311 (Dir false None []) =
   ([Isdir "/mnt/cassandra" true; Print report_scanning;
     Listdir "/mnt/cassandra" None;
     Print "No 'Data.db' files were found under '/mnt/cassandra' (excluding system keyspaces)."],
    inr tt)
   /\ stdout (find_oldest_sstable_globally host_311 (Dir false None [])) =
      [report_scanning;
       "No 'Data.db' files were found under '/mnt/cassandra' (excluding system keyspaces)."])
  /\ stdout (find_oldest_sstable_globally host_311 system_only_tree) =
     [report_scanning;
      "No 'Data.db' files were found under '/mnt/cassandra' (excluding system keyspaces)."]
  /\ stdout (find_oldest_sstable_globally host_311 no_match_tree) =
     [report_scanning;
      "No 'Data.db' files were found under '/mnt/cassandra' (excluding system keyspaces)."].
Proof.
  split; [|split].
  - apply (C9_none_found host_311 (Dir false None [])
             [Listdir "/mnt/cassandra" None] initial); reflexivity.
  - apply (C9_none_found host_311 system_only_tree
             (fst (scan host_311 system_only_tree)) initial); vm_compute; reflexivity.
  - apply (C9_none_found host_311 no_match_tree
             (fst (scan host_311 no_match_tree)) initial); vm_compute; reflexivity.
Defined.

(** ** C10: symbolic links to directories *)

(** C10. A keyspace or table directory reached through a symbolic link is
    treated as the directory itself: making them real directories changes
    nothing in the run, and a scan that returns has read the modification
    time of the [Data.db] in every table directory of every keyspace that is
    not excluded, whether the keyspace and the table directory are reached
    through links or not.  Below a table directory a directory reached
    through a link is not entered: emptying all of them changes nothing in
    the run, and every candidate the run observes is a target file of the
    tree so emptied. *)
Theorem C10_directory_links (h : host) base :
  find_oldest_sstable_globally h (real_top_levels base)
  = find_oldest_sstable_globally h base
  /\ (forall tr s keyspace keyspace_is_link tables table_dir table_is_link es st,
        scan h base = (tr, inr s) ->
        In (keyspace, Dir keyspace_is_link None tables) (entries_of base) ->
        mem keyspace system_keyspaces = false ->
        In (table_dir, Dir table_is_link None es) tables ->
        lookup "Data.db" (nondirs es) = Some st ->
        In (Getmtime
              (os_path_join
                 (os_path_join (os_path_join base_cassandra_path keyspace)
                    table_dir)
                 "Data.db") st)
           (fst (find_oldest_sstable_globally h base)))
  /\ find_oldest_sstable_globally h (prune_deep_links base)
     = find_oldest_sstable_globally h base
  /\ forall p t,
       In (Getmtime p (inr t))
          (fst (find_oldest_sstable_globally h base)) ->
       target (prune_deep_links base) p t.
Proof.
  assert (Pruned : find_oldest_sstable_globally h (prune_deep_links base)
                   = find_oldest_sstable_globally h base).
  { apply run_ext; [apply is_dir_map_entries|].
    apply scan_map_entries. intros s keyspace ks.
    apply keyspace_loop_map_entries. intros keyspace_path s0 table_dir tb.
    apply table_loop_ext; [apply is_dir_map_entries|].
    intros stop limit top. apply walk_prune. }
  split; [|split; [|split]].
  - apply run_ext; [apply is_dir_map_entries|].
    apply scan_map_entries. intros s keyspace ks.
    rewrite keyspace_loop_as_real.
    apply keyspace_loop_map_entries. intros keyspace_path s0 table_dir tb.
    apply table_loop_ext; [destruct tb; reflexivity|].
    intros stop limit top. apply walk_as_real.
  - intros tr s keyspace lk tables table_dir lt es st S Hk G Ht L.
    pose proof (scan_enters h base tr s keyspace lk tables table_dir lt es st
                  S Hk G Ht L) as E.
    destruct (run_trace h base (scan_returned_dir h _ _ _ S)) as (ls & ->).
    rewrite S. right. right. apply in_or_app. left. exact E.
  - exact Pruned.
  - intros p t G. rewrite <- Pruned in G.
    apply run_event_of_scan in G; [|exact I]. apply (scan_sound h), G.
Qed.

Lemma C10_directory_links_witness :
  find_oldest_sstable_globally host_311 (real_top_levels linked_tree)
  = find_oldest_sstable_globally host_311 linked_tree
  /\ In (Getmtime "/mnt/cassandra/shop/orders-a1/Data.db" (inr 300))
        (fst (find_oldest_sstable_globally host_311 linked_tree))
  /\ find_oldest_sstable_globally host_311 (prune_deep_links linked_tree)
     = find_oldest_sstable_globally host_311 linked_tree
  /\ target (prune_deep_links linked_tree)
            "/mnt/cassandra/shop/orders-a1/snapshots/Data.db" 100.
Proof.
  destruct (C10_directory_links host_311 linked_tree)
    as (Top & Entered & Deep & Seen).
  split; [exact Top|]. split; [|split; [exact Deep|]].
  - apply (Entered (fst (scan host_311 linked_tree))
             (State (Some "/mnt/cassandra/shop/orders-a1/snapshots/Data.db") (Fin 100))
             "shop" true
             [("orders-a1", Dir true None
                 [("Data.db", File (inr 300));
                  ("backup", Dir true None [("Data.db", File (inr 10))]);
                  ("snapshots", Dir false None [("Data.db", File (inr 100))])])]
             "orders-a1" true
             [("Data.db", File (inr 300));
              ("backup", Dir true None [("Data.db", File (inr 10))]);
              ("snapshots", Dir false None [("Data.db", File (inr 100))])]
             (inr 300)).
    + vm_compute. reflexivity.
    + left. reflexivity.
    + reflexivity.
    + left. reflexivity.
    + reflexivity.
  - apply Seen. vm_compute. tauto.
Defined.

(** On [linked_tree] the keyspace and the table are found through their
    links, and the [Data.db] behind the link [backup] is not looked at. *)
Example linked_run :
  find_oldest_sstable_globally host_311 linked_tree =
  ([Isdir "/mnt/cassandra" true;
    Print report_scanning;
    Listdir "/mnt/cassandra" None;
    Isdir "/mnt/cassandra/shop" true;
    Listdir "/mnt/cassandra/shop" None;
    Isdir "/mnt/cassandra/shop/orders-a1" true;
    Walk "/mnt/cassandra/shop/orders-a1";
    Getmtime "/mnt/cassandra/shop/orders-a1/Data.db" (inr 300);
    Getmtime "/mnt/cassandra/shop/orders-a1/snapshots/Data.db" (inr 100);
    Print "--- Oldest SSTable Found Across All Keyspaces ---";
    Print "Path: /mnt/cassandra/shop/orders-a1/snapshots/Data.db";
    Print "Modification Time: 100"],
   inr tt).
Proof. vm_compute. reflexivity. Qed.

(** * Further properties *)

(** ** The state of the reduction and the end of the function *)

(** X1. When the [try] block returns, its two variables are either both as
    initialised, no modification time having been read, or hold a path
    built as [os.path.join(root, 'Data.db')] and the finite time that was
    read at that path: the path is never set without the time, and
    [float('inf')] never stays with a path. *)
Theorem X1_state_after_the_scan (h : host) base tr s :
  scan h base = (tr, inr s) ->
  (s = initial /\ candidates tr = [])
  \/ (exists root t,
        s = State (Some (os_path_join root "Data.db")) (Fin t)
        /\ In (Getmtime (os_path_join root "Data.db") (inr t)) tr).
Proof.
  intros S. pose proof (scan_reduces h _ _ _ S) as R.
  destruct (candidates tr) as [|c cs] eqn:C.
  - left. simpl in R. auto.
  - right. destruct (first_least_exists (c :: cs)) as (p & t & FL); [discriminate|].
    rewrite <- C in FL. pose proof (first_least_in _ _ _ FL) as I.
    destruct (scan_candidate_path h base p t) as (root & ->); [rewrite S; exact I|].
    exists root, t. split; [|apply in_candidates, I].
    apply (scan_state_found h base tr s _ t S FL).
Qed.

Lemma X1_state_after_the_scan_witness :
  (State (Some "/mnt/cassandra/shop/users-b2/old/Data.db") (Fin 200) = initial
   /\ candidates (fst (scan host_311 rough_tree)) = [])
  \/ (exists root t,
        State (Some "/mnt/cassandra/shop/users-b2/old/Data.db") (Fin 200)
        = State (Some (os_path_join root "Data.db")) (Fin t)
        /\ In (Getmtime (os_path_join root "Data.db") (inr t))
              (fst (scan host_311 rough_tree))).
Proof.
  apply (X1_state_after_the_scan host_311 rough_tree (fst (scan host_311 rough_tree))).
  vm_compute. reflexivity.
Defined.

(** X2. The rendering of the time is made after the [try] block, so an
    exception it raises (a time beyond the years [datetime] can hold) is
    caught by no handler: when the scan returns with a candidate whose time
    cannot be rendered, the run ends with that exception, having printed
    the progress line and nothing else, neither a result nor an error
    report. *)
Theorem X2_rendering_failure_escapes (h : host) base tr s p t e :
  scan h base = (tr, inr s) ->
  first_least p t (candidates tr) ->
  strftime h t = inl e ->
  find_oldest_sstable_globally h base
  = (Isdir base_cassandra_path true :: Print report_scanning :: tr, inl e)
  /\ stdout (find_oldest_sstable_globally h base) = [report_scanning].
Proof.
  intros S FL R. split.
  - apply (run_unrendered h base tr s p t e S FL R).
  - apply (run_unrendered_stdout h base tr s p t e S FL R).
Qed.

Lemma X2_rendering_failure_escapes_witness :
  snd (find_oldest_sstable_globally host_311 far_future_tree)
  = inl (Exn OtherError "year 10000 is out of range")
  /\ stdout (find_oldest_sstable_globally host_311 far_future_tree)
     = [report_scanning].
Proof.
  destruct (X2_rendering_failure_escapes host_311 far_future_tree
              (fst (scan host_311 far_future_tree))
              (State (Some "/mnt/cassandra/shop/orders-a1/Data.db")
                     (Fin 253402300800))
              "/mnt/cassandra/shop/orders-a1/Data.db" 253402300800
              (Exn OtherError "year 10000 is out of range")) as [Run Out].
  - vm_compute. reflexivity.
  - exists [], [("/mnt/cassandra/shop/users-b2/Data.db", 253402300900)].
    split; [vm_compute; reflexivity|]. split.
    + intros c [].
    + intros c [<-|[]]. simpl. lia.
  - vm_compute. reflexivity.
  - split; [rewrite Run; reflexivity|exact Out].
Defined.

(** ** Failures of [os.listdir] *)

(** X3. A listing made with [os.listdir] (on the base directory or on a
    keyspace directory) that raises ends the run without a result, whatever
    was found before: a [PermissionError] gives the permission report with
    its text, and any other exception, a [FileNotFoundError] for a
    directory that has gone included, gives the report of an unexpected
    error with its text. *)
Theorem X3_listdir_failure_ends_run (h : host) base path e :
  In (Listdir path (Some e)) (fst (find_oldest_sstable_globally h base)) ->
  stdout (find_oldest_sstable_globally h base) =
  report_scanning :: (if is_PermissionError e then report_permission e
                      else report_unexpected e).
Proof. apply run_fatal. reflexivity. Qed.

Lemma X3_listdir_failure_ends_run_witness :
  In (Getmtime "/mnt/cassandra/blog/posts-c3/Data.db" (inr 200))
     (fst (find_oldest_sstable_globally host_311 vanished_keyspace_tree))
  /\ stdout (find_oldest_sstable_globally host_311 vanished_keyspace_tree) =
     [report_scanning;
      "An unexpected error occurred: [Errno 2] No such file or directory: '/mnt/cassandra/shop'"]
  /\ stdout (find_oldest_sstable_globally host_311 denied_keyspace_tree) =
     report_scanning :: report_permission (eacces "/mnt/cassandra/shop").
Proof.
  split; [vm_compute; tauto|]. split.
  - apply (X3_listdir_failure_ends_run host_311 vanished_keyspace_tree
             "/mnt/cassandra/shop" (enoent "/mnt/cassandra/shop")).
    vm_compute. tauto.
  - apply (X3_listdir_failure_ends_run host_311 denied_keyspace_tree
             "/mnt/cassandra/shop" (eacces "/mnt/cassandra/shop")).
    vm_compute. tauto.
Defined.

(** ** Where the [try] block ends *)

(** X4. The [try] block raises exactly on a failed [os.listdir], on a
    failed [os.path.getmtime] that is not a [FileNotFoundError], or when an
    [os.walk] generator raises (the recursive [os.walk] that cannot descend
    further; one that is a loop never does), and it stops there: when it
    ends with an exception, the last event is the one that raised that
    exception and no event before it was such a failure; when it returns,
    no event was such a failure. *)
Theorem X4_raises_at_the_failing_call (h : host) base :
  (forall ev e,
     fatal ev = Some e <->
     (exists path, ev = Listdir path (Some e))
     \/ (exists path, ev = Getmtime path (inl e) /\ is_FileNotFoundError e = false)
     \/ (exists path, ev = WalkRaised path e))
  /\ (forall tr e,
        scan h base = (tr, inl e) ->
        exists before ev,
          tr = before ++ [ev] /\ fatal ev = Some e
          /\ forall ev', In ev' before -> fatal ev' = None)
  /\ (forall tr s,
        scan h base = (tr, inr s) -> forall ev, In ev tr -> fatal ev = None)
  /\ (walk_limit h = None ->
      forall path e, ~ In (WalkRaised path e) (fst (scan h base))).
Proof.
  pose proof (clean_scan h base) as C. unfold clean in C.
  split; [|split; [|split]].
  - intros ev e. split.
    + destruct ev as [| path [x|] | | path x | path [x|y] |]; cbn [fatal];
        try discriminate.
      * intros E. inversion E; subst. left. eauto.
      * intros E. inversion E; subst. right. right. eauto.
      * destruct (is_FileNotFoundError x) eqn:F; [discriminate|].
        intros E. inversion E; subst. right. left. eauto.
    + intros [(path & ->)|[(path & -> & F)|(path & ->)]]; cbn [fatal];
        [|rewrite F|]; reflexivity.
  - intros tr e S. rewrite S in C. cbn [fst snd] in C.
    destruct C as (before & ev & -> & F & H). exists before, ev.
    repeat split; [exact F|]. apply Forall_forall, H.
  - intros tr s S. rewrite S in C. cbn [fst snd] in C. apply Forall_forall, C.
  - intros L path e H. rewrite scan_cases in H.
    destruct base as [st|lnk [x|] es]; cbn [fst] in H.
    + destruct H as [H|[]]. discriminate H.
    + destruct H as [H|[]]. discriminate H.
    + destruct H as [H|H]; [discriminate H|].
      apply for_each_event in H. destruct H as ([keyspace ks] & s' & Hk & He).
      apply keyspace_loop_event in He. cbv zeta in He.
      destruct He as [He|(G & lnk' & deny & es' & -> & [He|(-> & table_dir & tb & s'' & Ht & He)])];
        try discriminate He.
      rewrite table_loop_cases in He. cbv zeta in He.
      destruct (is_dir tb); cbn [fst] in He.
      * destruct He as [He|[He|He]]; try discriminate He.
        apply walk_loop_event in He.
        destruct He as [(x & E & W)|(root & dirs & files & st & _ & _ & E)];
          [|discriminate E].
        rewrite L, walk_unbounded in W. discriminate W.
      * destruct He as [He|[]]. discriminate He.
Qed.

Lemma X4_raises_at_the_failing_call_witness :
  (exists before ev,
     fst (scan host_311 vanished_keyspace_tree) = before ++ [ev]
     /\ fatal ev = Some (enoent "/mnt/cassandra/shop")
     /\ forall ev', In ev' before -> fatal ev' = None)
  /\ (forall ev, In ev (fst (scan host_311 rough_tree)) -> fatal ev = None)
  /\ (forall path e, ~ In (WalkRaised path e) (fst (scan host_312 deep_tree))).
Proof.
  destruct (X4_raises_at_the_failing_call host_311 vanished_keyspace_tree)
    as (_ & Raised & _ & _).
  destruct (X4_raises_at_the_failing_call host_311 rough_tree)
    as (_ & _ & Returned & _).
  destruct (X4_raises_at_the_failing_call host_312 deep_tree)
    as (_ & _ & _ & Loop).
  split; [|split].
  - apply (Raised (fst (scan host_311 vanished_keyspace_tree))
             (enoent "/mnt/cassandra/shop")).
    vm_compute. reflexivity.
  - apply (Returned (fst (scan host_311 rough_tree))
             (State (Some "/mnt/cassandra/shop/users-b2/old/Data.db") (Fin 200))).
    vm_compute. reflexivity.
  - apply Loop. reflexivity.
Defined.

(** On a host whose [os.walk] can descend two directories, the table
    directory of [deep_tree] is too deep: the generator raises inside the
    [try] block, the [Data.db] is not read and the run ends with the report
    of an unexpected error. *)
Example deep_tree_beyond_the_limit :
  find_oldest_sstable_globally host_two_deep deep_tree =
  ([Isdir "/mnt/cassandra" true;
    Print report_scanning;
    Listdir "/mnt/cassandra" None;
    Isdir "/mnt/cassandra/shop" true;
    Listdir "/mnt/cassandra/shop" None;
    Isdir "/mnt/cassandra/shop/system" true;
    Walk "/mnt/cassandra/shop/system";
    WalkRaised "/mnt/cassandra/shop/system"
      (Exn OtherError "maximum recursion depth exceeded");
    Print "An unexpected error occurred: maximum recursion depth exceeded"],
   inr tt).
Proof. vm_compute. reflexivity. Qed.

(** ** Entries that are not directories *)

(** X5. Entries of the base directory and of a keyspace directory that are
    not directories (stray files, names that have gone, whatever reading
    their modification time would do) have no effect beyond the check made
    on them: without them the [try] block ends in the same way, with the
    same running minimum or the same exception, and the run prints the
    same. *)
Theorem X5_stray_entries_ignored (h : host) base :
  snd (scan h (without_strays base)) = snd (scan h base)
  /\ stdout (find_oldest_sstable_globally h (without_strays base))
     = stdout (find_oldest_sstable_globally h base).
Proof.
  assert (S : snd (scan h (without_strays base)) = snd (scan h base)).
  { rewrite !scan_cases. destruct base as [st|lnk [e|] es]; try reflexivity.
    cbn [without_strays snd].
    rewrite (for_each_snd_map (fun e : entry => (fst e, without_stray_files (snd e)))
               (keyspace_loop h) (keyspace_loop h)).
    - apply for_each_snd_filter. intros [keyspace n] s D.
      apply keyspace_loop_stray, D.
    - intros [keyspace ks] s. apply keyspace_loop_without_stray_files. }
  split; [exact S|]. apply stdout_ext; [destruct base; reflexivity|exact S].
Qed.

(** ** The paths of the library calls *)

(** X6. When no name in the tree starts with the separator (listings return
    bare names), every path the run passes to [os.path.isdir],
    [os.listdir], [os.walk] or [os.path.getmtime] is [/mnt/cassandra]
    itself or starts with [/mnt/cassandra/]: no call is made on a path
    outside the base directory. *)
Theorem X6_calls_stay_below_base (h : host) base ev p :
  relative_names base = true ->
  In ev (fst (find_oldest_sstable_globally h base)) ->
  event_path ev = Some p ->
  p = base_cassandra_path \/ inside p = true.
Proof.
  intros R H P. destruct (is_dir base) eqn:D.
  2:{ rewrite (run_missing h base D) in H. destruct H as [<-|H].
      - inversion P. auto.
      - apply in_map_iff in H. destruct H as (l & <- & _). discriminate P. }
  destruct (run_trace h base D) as (ls & E). rewrite E in H.
  destruct H as [<-|[<-|H]]; [inversion P; auto|discriminate P|].
  apply in_app_or in H. destruct H as [H|H].
  2:{ apply in_map_iff in H. destruct H as (l & <- & _). discriminate P. }
  rewrite scan_cases in H. destruct base as [st|lnk [e|] es]; cbn [fst] in H.
  - destruct H as [<-|[]]. inversion P. auto.
  - destruct H as [<-|[]]. inversion P. auto.
  - destruct H as [<-|H]; [inversion P; auto|]. right.
    apply for_each_event in H. destruct H as ([keyspace ks] & s' & Hk & He).
    destruct (relative_names_Dir _ _ _ _ _ R Hk) as [Nk Rk].
    pose proof (join_base_inside keyspace Nk) as Ik.
    apply keyspace_loop_event in He. cbv zeta in He.
    destruct He as [->|(_ & lnk' & deny & es' & -> & [->|(_ & table_dir & tb & s'' & Ht & He)])];
      try (inversion P; subst; exact Ik).
    destruct (relative_names_Dir _ _ _ _ _ Rk Ht) as [Nt Rt].
    pose proof (join_inside _ _ Ik Nt) as It.
    apply table_loop_event in He. cbv zeta in He.
    destruct He as [->|(_ & [->|[(e & ->)|(root & dirs & files & st & Hi & _ & ->)]])];
      try (inversion P; subst; exact It).
    inversion P; subst. apply join_inside; [|reflexivity].
    apply (walk_roots_inside _ tb _ _ root dirs files Rt It Hi).
Qed.

Lemma X6_calls_stay_below_base_witness :
  relative_names sample_tree = true
  /\ ("/mnt/cassandra/shop/orders-a1/snapshots/s1/Data.db" = base_cassandra_path
      \/ inside "/mnt/cassandra/shop/orders-a1/snapshots/s1/Data.db" = true).
Proof.
  split; [reflexivity|].
  apply (X6_calls_stay_below_base host_311 sample_tree
           (Getmtime "/mnt/cassandra/shop/orders-a1/snapshots/s1/Data.db" (inr 100))).
  - reflexivity.
  - vm_compute. tauto.
  - reflexivity.
Defined.

(** ** The result in any tree *)

(** X7. In any tree, readable or not: when the [try] block returns and at
    least one modification time was read, the path and the time it holds
    come from one and the same read, that time is at most every time read
    during the run, and every read before it gave a strictly later time;
    they are the path and the time the run prints, provided the time can be
    rendered. *)
Theorem X7_result_is_a_least_read (h : host) base tr s :
  scan h base = (tr, inr s) ->
  candidates tr <> [] ->
  exists p t,
    first_least p t (candidates tr)
    /\ s = State (Some p) (Fin t)
    /\ In (Getmtime p (inr t)) (fst (find_oldest_sstable_globally h base))
    /\ (forall p' t',
          In (Getmtime p' (inr t')) (fst (find_oldest_sstable_globally h base)) ->
          t <= t')
    /\ forall text,
         strftime h t = inr text ->
         stdout (find_oldest_sstable_globally h base) =
         report_scanning :: report_found p text.
Proof.
  intros S C. destruct (first_least_exists _ C) as (p & t & FL).
  exists p, t. split; [exact FL|].
  split; [apply (scan_state_found h base tr s p t S FL)|].
  assert (E : forall q u,
            In (Getmtime q (inr u)) (fst (find_oldest_sstable_globally h base))
            <-> In (q, u) (candidates tr)).
  { intros q u. rewrite <- in_candidates, (run_candidates h base tr s S).
    reflexivity. }
  split; [apply E, first_least_in, FL|]. split.
  - intros p' t' H. apply E in H. apply (first_least_le _ _ _ _ FL H).
  - intros text R. apply (run_found_stdout h base tr s p t text S FL R).
Qed.

Lemma X7_result_is_a_least_read_witness :
  exists p t,
    first_least p t (candidates (fst (scan host_311 rough_tree)))
    /\ State (Some "/mnt/cassandra/shop/users-b2/old/Data.db") (Fin 200)
       = State (Some p) (Fin t)
    /\ In (Getmtime p (inr t)) (fst (find_oldest_sstable_globally host_311 rough_tree))
    /\ (forall p' t',
          In (Getmtime p' (inr t'))
             (fst (find_oldest_sstable_globally host_311 rough_tree)) ->
          t <= t')
    /\ forall text,
         strftime host_311 t = inr text ->
         stdout (find_oldest_sstable_globally host_311 rough_tree) =
         report_scanning :: report_found p text.
Proof.
  apply (X7_result_is_a_least_read host_311 rough_tree
           (fst (scan host_311 rough_tree))
           (State (Some "/mnt/cassandra/shop/users-b2/old/Data.db") (Fin 200))).
  - vm_compute. reflexivity.
  - vm_compute. discriminate.
Defined.

(** ** The order of the listings *)

(** X8. Two trees, static up to files that have gone and no deeper than
    [os.walk] can descend, that hold the same target files, in whatever
    order their directories list them: both scans return, with the same
    least time.  When no two target files share the least time (as when
    there is no target file at all), the scans end in the same state and
    the two runs print the same.  When several target files share the least
    time, the path may differ with the order of the listings, as
    [tie_tree] and [swapped_tie_tree] show. *)
Theorem X8_listing_order (h : host) base base' :
  raced_tree h base = true ->
  raced_tree h base' = true ->
  (forall q u, target base q u <-> target base' q u) ->
  (exists s s',
     snd (scan h base) = inr s /\ snd (scan h base') = inr s'
     /\ oldest_file_time s = oldest_file_time s')
  /\ ((forall p q t,
         target base p t -> target base q t ->
         (forall r u, target base r u -> t <= u) -> p = q) ->
      snd (scan h base') = snd (scan h base)
      /\ stdout (find_oldest_sstable_globally h base')
         = stdout (find_oldest_sstable_globally h base)).
Proof.
  intros P P' Same.
  destruct (scan_state_of_targets h true base base' P P' Same)
    as (s & s' & S & S' & T & U).
  split; [exists s, s'; auto|]. intros One.
  assert (E : snd (scan h base') = snd (scan h base)).
  { rewrite S, S', (U One). reflexivity. }
  split; [exact E|]. apply stdout_ext; [|exact E].
  destruct (plain_base_Dir _ _ _ P) as (lnk & es & -> & _).
  destruct (plain_base_Dir _ _ _ P') as (lnk' & es' & -> & _). reflexivity.
Qed.

Lemma X8_listing_order_witness :
  (exists s s',
     snd (scan host_311 sample_tree) = inr s
     /\ snd (scan host_311 reordered_sample_tree) = inr s'
     /\ oldest_file_time s = oldest_file_time s')
  /\ snd (scan host_311 reordered_sample_tree) = snd (scan host_311 sample_tree)
  /\ stdout (find_oldest_sstable_globally host_311 reordered_sample_tree)
     = stdout (find_oldest_sstable_globally host_311 sample_tree).
Proof.
  destruct (X8_listing_order host_311 sample_tree reordered_sample_tree)
    as [Time Same].
  - reflexivity.
  - reflexivity.
  - intros q u. rewrite !(static_targets host_311 true) by reflexivity.
    vm_compute. tauto.
  - split; [exact Time|]. apply Same.
    intros p q t Tp Tq _.
    rewrite (static_targets host_311 true) in Tp, Tq by reflexivity.
    vm_compute in Tp, Tq.
    destruct Tp as [E|[E|[E|[]]]]; inversion E; subst;
      destruct Tq as [E'|[E'|[E'|[]]]]; inversion E'; subst; reflexivity.
Defined.

(** With a tie the order of the listings shows: the same target files, and
    another path held at the end. *)
Example tie_depends_on_the_order :
  (forall q u, target tie_tree q u <-> target swapped_tie_tree q u)
  /\ snd (scan host_311 tie_tree)
     = inr (State (Some "/mnt/cassandra/shop/orders-a1/Data.db") (Fin 100))
  /\ snd (scan host_311 swapped_tie_tree)
     = inr (State (Some "/mnt/cassandra/shop/users-b2/Data.db") (Fin 100)).
Proof.
  split; [|split; vm_compute; reflexivity].
  intros q u. rewrite !(static_targets host_311 false) by reflexivity.
  vm_compute. tauto.
Qed.

(** ** Directories that [os.walk] cannot list *)

(** X9. A table directory, or a directory at any depth below one, that
    cannot be listed is treated exactly as an empty directory: the run
    makes the same calls and prints the same as on the tree in which these
    directories are empty and can be listed.  Nothing is raised and nothing
    is reported for them. *)
Theorem X9_unlistable_directories_as_empty (h : host) base :
  find_oldest_sstable_globally h (open_denied_tables base)
  = find_oldest_sstable_globally h base.
Proof.
  apply run_ext; [apply is_dir_map_entries|].
  apply scan_map_entries. intros s keyspace ks.
  apply keyspace_loop_map_entries. intros keyspace_path s0 table_dir tb.
  rewrite !table_loop_cases. cbv zeta.
  rewrite is_dir_open_denied. rewrite walk_loop_open_denied. reflexivity.
Qed.

(** ** What the scan reads *)

(** X10. A modification time that the run reads successfully is always that
    of a target file: a [Data.db] at some depth of a table directory of a
    keyspace that is not excluded.  In a tree that is static up to files
    that have gone, and no deeper than [os.walk] can descend on the host,
    the converse holds too: the run reads the modification time of every
    target file, whatever the name of its table directory and at whatever
    depth within that bound it lies; on a host whose [os.walk] is a loop
    there is no bound. *)
Theorem X10_reads_exactly_the_targets (h : host) base p t :
  (In (Getmtime p (inr t)) (fst (find_oldest_sstable_globally h base)) ->
   target base p t)
  /\ (raced_tree h base = true ->
      target base p t ->
      In (Getmtime p (inr t)) (fst (find_oldest_sstable_globally h base))).
Proof.
  split.
  - intros H. apply run_event_of_scan in H; [|exact I]. apply (scan_sound h), H.
  - intros P T. destruct (plain_base_Dir _ _ _ P) as (lnk & es & -> & _).
    destruct (run_trace h (Dir lnk None es) eq_refl) as (ls & ->).
    right. right. apply in_or_app. left.
    apply (scan_complete h true); assumption.
Qed.

Lemma X10_reads_exactly_the_targets_witness :
  target deep_tree "/mnt/cassandra/shop/system/a/b/c/Data.db" 42
  /\ In (Getmtime "/mnt/cassandra/shop/system/a/b/c/Data.db" (inr 42))
        (fst (find_oldest_sstable_globally host_312 deep_tree)).
Proof.
  destruct (X10_reads_exactly_the_targets host_312 deep_tree
              "/mnt/cassandra/shop/system/a/b/c/Data.db" 42) as [Sound Complete].
  assert (T : target deep_tree "/mnt/cassandra/shop/system/a/b/c/Data.db" 42).
  { apply Sound. vm_compute. tauto. }
  split; [exact T|]. apply Complete; [reflexivity|exact T].
Defined.
